(** * Verification model of the Convos bridge extension (pi-convos)

    Shallow embedding of the headless extension ([startAgent], [stopAgent],
    the stdout line handler, [persistState] / [loadPersistedState],
    [catchUpOnMissedMessages] and the [before_agent_start] hook). *)

From Stdlib Require Import String Ascii List ZArith Bool Lia.
Import ListNotations.
Open Scope Z_scope.

(* ------------------------------------------------------------------ *)
(** ** Process supervisor: [startAgent] / [stopAgent] / exit handler *)

Module Supervisor.

(** Exit code as Node reports it to the ["exit"] listener: [None] is
    [null] (the child was terminated by a signal). *)
Definition exit_code := option Z.

(** What the exit handler publishes with [pi.sendMessage]. *)
Inductive notice :=
| StartupFailure (code : exit_code) (stderr : list string)
    (* "[Convos] Agent process exited with code .. before becoming ready." *)
| ProcessExited (code : exit_code)
    (* "[Convos] Agent process exited (code ..)." *).

Definition stderr_cap : nat := 50.

(** [stderrLines.push(line); if (stderrLines.length > 50) stderrLines.shift();] *)
Definition push_stderr (stderrLines : list string) (line : string) : list string :=
  let b := stderrLines ++ [line] in
  if Nat.ltb stderr_cap (length b) then tl b else b.

(** The module-level variables the supervisor touches, plus the part of
    the child process and of the event loop the claims observe. *)
Record sup := mkSup {
  agentProcess : bool;      (* agentProcess !== null *)
  stdinWriter : bool;       (* stdinWriter !== null *)
  isReady : bool;
  rl_open : bool;           (* the stdout readline interface is open *)
  stdin_writable : bool;    (* proc.stdin?.writable *)
  child_exited : bool;      (* Node has seen the child exit (its handle is gone) *)
  stderrLines : list string;
  timers : list Z;          (* pending setTimeout deadlines: proc.kill("SIGTERM") *)
  now : Z;                  (* milliseconds *)
  stdin_log : list string;  (* commands written to the child's stdin *)
  signals : nat;            (* SIGTERMs actually delivered to the child *)
  notices : list notice
}.

(** State right after [startAgent(args)]. *)
Definition start : sup :=
  mkSup true true false true true false [] [] 0 [] 0 [].

(** Inputs the supervisor reacts to. *)
Inductive ev :=
| EvReady                 (* a ["ready"] line on stdout *)
| EvStderr (line : string)
| EvStop                  (* stopAgent() *)
| EvExit (code : exit_code)
| EvAdvance (dt : Z).     (* time passes; due timers fire *)

(** [stdinWriter?.(cmd)]: written only if there is a writer and the
    stream is writable. *)
Definition write_cmd (s : sup) (cmd : string) : sup :=
  if stdinWriter s && stdin_writable s
  then {| agentProcess := agentProcess s; stdinWriter := stdinWriter s;
          isReady := isReady s; rl_open := rl_open s;
          stdin_writable := stdin_writable s; child_exited := child_exited s;
          stderrLines := stderrLines s; timers := timers s; now := now s;
          stdin_log := stdin_log s ++ [cmd]; signals := signals s;
          notices := notices s |}
  else s.

(** [stopAgent()] *)
Definition stopAgent (s : sup) : sup :=
  if agentProcess s then
    let s1 := write_cmd s "stop"%string in
    {| agentProcess := false; stdinWriter := false; isReady := false;
       rl_open := false; stdin_writable := stdin_writable s1;
       child_exited := child_exited s1; stderrLines := stderrLines s1;
       timers := timers s1 ++ [now s1 + 2000]; now := now s1;
       stdin_log := stdin_log s1; signals := signals s1;
       notices := notices s1 |}
  else s.

(** [proc.kill("SIGTERM")] on the captured child: Node sends the signal
    only while the child's handle is alive; after the ["exit"] event the
    handle is released and [kill] returns [false] without signalling. *)
Definition kill (s : sup) : sup :=
  if child_exited s then s
  else {| agentProcess := agentProcess s; stdinWriter := stdinWriter s;
          isReady := isReady s; rl_open := rl_open s;
          stdin_writable := stdin_writable s; child_exited := child_exited s;
          stderrLines := stderrLines s; timers := timers s; now := now s;
          stdin_log := stdin_log s; signals := S (signals s);
          notices := notices s |}.

(** Time advances by [dt]; every timer whose deadline is reached fires once
    and is removed. *)
Definition advance (dt : Z) (s : sup) : sup :=
  let t := now s + dt in
  let due := filter (fun d => d <=? t) (timers s) in
  let rest := filter (fun d => negb (d <=? t)) (timers s) in
  fold_left (fun s' _ => kill s')
    due
    {| agentProcess := agentProcess s; stdinWriter := stdinWriter s;
       isReady := isReady s; rl_open := rl_open s;
       stdin_writable := stdin_writable s; child_exited := child_exited s;
       stderrLines := stderrLines s; timers := rest; now := t;
       stdin_log := stdin_log s; signals := signals s;
       notices := notices s |}.

Definition code_is_zero (c : exit_code) : bool :=
  match c with Some 0 => true | _ => false end.

(** [proc.on("exit", (code) => ...)] *)
Definition on_exit (code : exit_code) (s : sup) : sup :=
  let wasReady := isReady s in
  let n :=
    if negb wasReady && negb (code_is_zero code)
    then [StartupFailure code (stderrLines s)]
    else if wasReady then [ProcessExited code] else [] in
  {| agentProcess := false; stdinWriter := false; isReady := false;
     rl_open := false; stdin_writable := false; child_exited := true;
     stderrLines := stderrLines s; timers := timers s; now := now s;
     stdin_log := stdin_log s; signals := signals s;
     notices := notices s ++ n |}.

(** [case "ready": isReady = true] (only while the readline interface is
    open: [stopAgent] and the exit handler close it). *)
Definition on_ready (s : sup) : sup :=
  if rl_open s then
    {| agentProcess := agentProcess s; stdinWriter := stdinWriter s;
       isReady := true; rl_open := rl_open s;
       stdin_writable := stdin_writable s; child_exited := child_exited s;
       stderrLines := stderrLines s; timers := timers s; now := now s;
       stdin_log := stdin_log s; signals := signals s;
       notices := notices s |}
  else s.

Definition on_stderr (line : string) (s : sup) : sup :=
  {| agentProcess := agentProcess s; stdinWriter := stdinWriter s;
     isReady := isReady s; rl_open := rl_open s;
     stdin_writable := stdin_writable s; child_exited := child_exited s;
     stderrLines := push_stderr (stderrLines s) line; timers := timers s;
     now := now s; stdin_log := stdin_log s; signals := signals s;
     notices := notices s |}.

(** One input. The child's ["exit"] event is emitted once. *)
Definition step (s : sup) (e : ev) : sup :=
  match e with
  | EvReady => on_ready s
  | EvStderr l => on_stderr l s
  | EvStop => stopAgent s
  | EvExit c => if child_exited s then s else on_exit c s
  | EvAdvance dt => advance dt s
  end.

Definition run (evs : list ev) (s : sup) : sup := fold_left step evs s.

Definition is_ready_or_exit (e : ev) : bool :=
  match e with EvReady | EvExit _ => true | _ => false end.

End Supervisor.

(* ------------------------------------------------------------------ *)
(** ** [JSON.stringify(v, null, 2)] and [JSON.parse] *)

(** The runtime's JSON, over byte strings. Numbers are integers; a
    fraction or exponent, and a [\u] escape above 255, fall outside
    this model and are treated as a parse failure. *)
Module Json.

#[local] Set Warnings "-register-all".

Inductive jvalue :=
| JNull
| JBool (b : bool)
| JNum (n : Z)
| JStr (s : string)
| JArr (xs : list jvalue)
| JObj (members : list (string * jvalue)).

Local Open Scope string_scope.

Definition dquote : ascii := "034"%char.
Definition bslash : ascii := "092"%char.
Definition nl : string := String "010"%char EmptyString.
Definition chr (c : ascii) : string := String c EmptyString.

Definition hex_digit (n : nat) : ascii :=
  if Nat.ltb n 10 then ascii_of_nat (48 + n)%nat else ascii_of_nat (87 + n)%nat.

(** QuoteJSONString: short escapes for the double quote, the backslash
    and \b \f \n \r \t; [\u00xx] (lower-case hex) for the other control
    characters. *)
Definition escape_char (c : ascii) : string :=
  let n := nat_of_ascii c in
  if Nat.eqb n 34 then String bslash (chr dquote)
  else if Nat.eqb n 92 then String bslash (chr bslash)
  else if Nat.eqb n 8 then String bslash "b"
  else if Nat.eqb n 12 then String bslash "f"
  else if Nat.eqb n 10 then String bslash "n"
  else if Nat.eqb n 13 then String bslash "r"
  else if Nat.eqb n 9 then String bslash "t"
  else if Nat.ltb n 32 then
    String bslash (String "u"%char (String "0"%char (String "0"%char
      (String (hex_digit (n / 16)%nat) (chr (hex_digit (n mod 16)%nat))))))
  else chr c.

Fixpoint escape (s : string) : string :=
  match s with
  | EmptyString => EmptyString
  | String c r => escape_char c ++ escape r
  end.

Definition quote (s : string) : string :=
  String dquote (escape s ++ chr dquote).

(** Decimal digits of a non-negative integer. *)
Fixpoint z_digits (fuel : nat) (z : Z) (acc : string) : string :=
  match fuel with
  | O => acc
  | S f =>
      let acc' := String (ascii_of_nat (48 + Z.to_nat (z mod 10))%nat) acc in
      if Z.ltb z 10 then acc' else z_digits f (z / 10) acc'
  end.

Definition string_of_Z (z : Z) : string :=
  let a := Z.abs z in
  let ds := z_digits (S (Z.to_nat (Z.log2 a))) a EmptyString in
  if Z.ltb z 0 then "-" ++ ds else ds.

Fixpoint join (sep : string) (xs : list string) : string :=
  match xs with
  | [] => EmptyString
  | [x] => x
  | x :: r => x ++ sep ++ join sep r
  end.

(** [JSON.stringify(v, null, 2)] at indentation [ind]. *)
Fixpoint stringify_at (ind : string) (v : jvalue) : string :=
  match v with
  | JNull => "null"
  | JBool true => "true"
  | JBool false => "false"
  | JNum z => string_of_Z z
  | JStr s => quote s
  | JArr [] => "[]"
  | JArr xs =>
      let ind' := ind ++ "  " in
      "[" ++ nl ++ ind' ++ join ("," ++ nl ++ ind') (map (stringify_at ind') xs)
          ++ nl ++ ind ++ "]"
  | JObj [] => "{}"
  | JObj ms =>
      let ind' := ind ++ "  " in
      "{" ++ nl ++ ind'
          ++ join ("," ++ nl ++ ind')
               (map (fun kv => quote (fst kv) ++ ": " ++ stringify_at ind' (snd kv)) ms)
          ++ nl ++ ind ++ "}"
  end.

Definition stringify_pretty (v : jvalue) : string := stringify_at EmptyString v.

(** Parsing. *)
Definition is_ws (c : ascii) : bool :=
  let n := nat_of_ascii c in
  Nat.eqb n 32 || Nat.eqb n 9 || Nat.eqb n 10 || Nat.eqb n 13.

Fixpoint skip_ws (s : string) : string :=
  match s with
  | String c r => if is_ws c then skip_ws r else s
  | EmptyString => EmptyString
  end.

Definition hex_val (c : ascii) : option nat :=
  let n := nat_of_ascii c in
  if Nat.leb 48 n && Nat.leb n 57 then Some (n - 48)%nat
  else if Nat.leb 97 n && Nat.leb n 102 then Some (n - 87)%nat
  else if Nat.leb 65 n && Nat.leb n 70 then Some (n - 55)%nat
  else None.

Definition short_unescape (e : ascii) : option ascii :=
  let n := nat_of_ascii e in
  if Nat.eqb n 34 then Some dquote
  else if Nat.eqb n 92 then Some bslash
  else if Nat.eqb n 47 then Some "/"%char
  else if Nat.eqb n 98 then Some "008"%char
  else if Nat.eqb n 102 then Some "012"%char
  else if Nat.eqb n 110 then Some "010"%char
  else if Nat.eqb n 114 then Some "013"%char
  else if Nat.eqb n 116 then Some "009"%char
  else None.

Definition cons_res (c : ascii) (o : option (string * string)) : option (string * string) :=
  match o with
  | Some (x, r) => Some (String c x, r)
  | None => None
  end.

(** The body of a string literal, after its opening quote: the decoded
    string and the input after the closing quote. *)
Fixpoint parse_string_body (s : string) : option (string * string) :=
  match s with
  | EmptyString => None
  | String c r =>
      if Ascii.eqb c dquote then Some (EmptyString, r)
      else if Ascii.eqb c bslash then
        match r with
        | EmptyString => None
        | String e r1 =>
            if Nat.eqb (nat_of_ascii e) 117 then
              match r1 with
              | String h1 (String h2 (String h3 (String h4 r5))) =>
                  match hex_val h1, hex_val h2, hex_val h3, hex_val h4 with
                  | Some a, Some b, Some c', Some d =>
                      let code := (a * 4096 + b * 256 + c' * 16 + d)%nat in
                      if Nat.ltb code 256
                      then cons_res (ascii_of_nat code) (parse_string_body r5)
                      else None
                  | _, _, _, _ => None
                  end
              | _ => None
              end
            else match short_unescape e with
                 | Some ch => cons_res ch (parse_string_body r1)
                 | None => None
                 end
        end
      else if Nat.ltb (nat_of_ascii c) 32 then None
      else cons_res c (parse_string_body r)
  end.

Fixpoint strip_prefix (p s : string) : option string :=
  match p, s with
  | EmptyString, _ => Some s
  | String a p', String b s' => if Ascii.eqb a b then strip_prefix p' s' else None
  | String _ _, EmptyString => None
  end.

Definition is_digit (c : ascii) : bool :=
  let n := nat_of_ascii c in Nat.leb 48 n && Nat.leb n 57.

(** Digits of an integer literal: value, digit count, rest. *)
Fixpoint parse_digits (s : string) (acc : Z) (cnt : nat) : Z * nat * string :=
  match s with
  | String c r =>
      if is_digit c
      then parse_digits r (acc * 10 + Z.of_nat (nat_of_ascii c - 48)%nat) (S cnt)
      else (acc, cnt, s)
  | EmptyString => (acc, cnt, s)
  end.

Definition number_end_ok (s : string) : bool :=
  match s with
  | String c _ => negb (Ascii.eqb c "."%char || Ascii.eqb c "e"%char || Ascii.eqb c "E"%char)
  | EmptyString => true
  end.

Definition parse_uint (s : string) : option (Z * string) :=
  match s with
  | String c r =>
      if is_digit c then
        let '(v, cnt, rest) := parse_digits s 0 0 in
        if Ascii.eqb c "0"%char && Nat.ltb 1 cnt then None
        else if number_end_ok rest then Some (v, rest) else None
      else None
  | EmptyString => None
  end.

Fixpoint parse_value (fuel : nat) (s : string) : option (jvalue * string) :=
  match fuel with
  | O => None
  | S f =>
      match skip_ws s with
      | EmptyString => None
      | String c r =>
          if Ascii.eqb c "{"%char then
            match skip_ws r with
            | String d r' =>
                if Ascii.eqb d "}"%char then Some (JObj [], r')
                else match parse_members f r with
                     | Some (ms, r2) => Some (JObj ms, r2)
                     | None => None
                     end
            | EmptyString => None
            end
          else if Ascii.eqb c "["%char then
            match skip_ws r with
            | String d r' =>
                if Ascii.eqb d "]"%char then Some (JArr [], r')
                else match parse_elems f r with
                     | Some (xs, r2) => Some (JArr xs, r2)
                     | None => None
                     end
            | EmptyString => None
            end
          else if Ascii.eqb c dquote then
            match parse_string_body r with
            | Some (x, r2) => Some (JStr x, r2)
            | None => None
            end
          else if Ascii.eqb c "-"%char then
            match parse_uint r with
            | Some (v, r2) => Some (JNum (- v), r2)
            | None => None
            end
          else if is_digit c then
            match parse_uint (String c r) with
            | Some (v, r2) => Some (JNum v, r2)
            | None => None
            end
          else
            match strip_prefix "null" (String c r) with
            | Some r2 => Some (JNull, r2)
            | None =>
              match strip_prefix "true" (String c r) with
              | Some r2 => Some (JBool true, r2)
              | None =>
                match strip_prefix "false" (String c r) with
                | Some r2 => Some (JBool false, r2)
                | None => None
                end
              end
            end
      end
  end
with parse_members (fuel : nat) (s : string)
  : option (list (string * jvalue) * string) :=
  match fuel with
  | O => None
  | S f =>
      match skip_ws s with
      | String q r =>
          if Ascii.eqb q dquote then
            match parse_string_body r with
            | Some (k, r1) =>
                match skip_ws r1 with
                | String colon r2 =>
                    if Ascii.eqb colon ":"%char then
                      match parse_value f r2 with
                      | Some (v, r3) =>
                          match skip_ws r3 with
                          | String c r4 =>
                              if Ascii.eqb c ","%char then
                                match parse_members f r4 with
                                | Some (ms, r5) => Some ((k, v) :: ms, r5)
                                | None => None
                                end
                              else if Ascii.eqb c "}"%char then Some ([(k, v)], r4)
                              else None
                          | EmptyString => None
                          end
                      | None => None
                      end
                    else None
                | EmptyString => None
                end
            | None => None
            end
          else None
      | EmptyString => None
      end
  end
with parse_elems (fuel : nat) (s : string) : option (list jvalue * string) :=
  match fuel with
  | O => None
  | S f =>
      match parse_value f s with
      | Some (v, r3) =>
          match skip_ws r3 with
          | String c r4 =>
              if Ascii.eqb c ","%char then
                match parse_elems f r4 with
                | Some (xs, r5) => Some (v :: xs, r5)
                | None => None
                end
              else if Ascii.eqb c "]"%char then Some ([v], r4)
              else None
          | EmptyString => None
          end
      | None => None
      end
  end.

(** [JSON.parse(text)]: [None] is a thrown SyntaxError. *)
Definition json_parse (text : string) : option jvalue :=
  match parse_value (S (String.length text)) text with
  | Some (v, rest) =>
      match skip_ws rest with
      | EmptyString => Some v
      | String _ _ => None
      end
  | None => None
  end.

(** Property read [obj.key] on a parsed value: [None] is [undefined]
    (a later duplicate key wins, as in [JSON.parse]). *)
Fixpoint assoc_last (k : string) (ms : list (string * jvalue)) : option jvalue :=
  match ms with
  | [] => None
  | (k', v) :: r =>
      match assoc_last k r with
      | Some w => Some w
      | None => if String.eqb k k' then Some v else None
      end
  end.

End Json.

(* ------------------------------------------------------------------ *)
(** ** Session state file: [persistState] / [loadPersistedState] *)

Module Store.
Import Json.
Local Open Scope string_scope.

(** A variable typed [string | null] (or optional): [Undefined] is the
    absent value. *)
Inductive jsval := Undefined | Null | Str (s : string).

(** JS truthiness of such a variable. *)
Definition truthy (v : jsval) : bool :=
  match v with Str s => negb (String.eqb s "") | _ => false end.

(** How a member holding [v] reaches [JSON.stringify]: [undefined]
    members are omitted. *)
Definition jsval_json (v : jsval) : option jvalue :=
  match v with Undefined => None | Null => Some JNull | Str s => Some (JStr s) end.

Definition opt_member (k : string) (v : jsval) : list (string * jvalue) :=
  match jsval_json v with Some j => [(k, j)] | None => [] end.

(** Files: readable text, or present but unreadable (EACCES, EISDIR). *)
Inductive file := FText (contents : string) | FUnreadable.

Definition fs := list (string * file).

Fixpoint fs_lookup (p : string) (m : fs) : option file :=
  match m with
  | [] => None
  | (q, f) :: r => if String.eqb p q then Some f else fs_lookup p r
  end.

(** [writeFileSync(p, c)]: creates or replaces the file. The parent
    directories made by [mkdirSync(.., { recursive: true })] are not
    tracked. *)
Definition writeFileSync (p c : string) (m : fs) : fs :=
  (p, FText c) :: filter (fun e => negb (String.eqb (fst e) p)) m.

Definition existsSync (p : string) (m : fs) : bool :=
  match fs_lookup p m with Some _ => true | None => false end.

(** [readFileSync(p, "utf-8")]: [None] is a thrown I/O error. *)
Definition readFileSync (p : string) (m : fs) : option string :=
  match fs_lookup p m with Some (FText c) => Some c | _ => None end.

(** The literal [{ conversationId, inviteUrl, lastSeenTimestampNs }]. *)
Definition state_object (conversationId : string) (inviteUrl lastSeenTimestampNs : jsval)
  : jvalue :=
  JObj ([("conversationId", JStr conversationId)]
        ++ opt_member "inviteUrl" inviteUrl
        ++ opt_member "lastSeenTimestampNs" lastSeenTimestampNs).

(** [persistState()]; [configPath] is the value of [getConvosConfigPath()]. *)
Definition persistState (configPath : option string)
    (conversationId inviteUrl lastSeenTimestampNs : jsval) (m : fs) : fs :=
  if negb (truthy conversationId) then m else
  match configPath, conversationId with
  | Some p, Str cid =>
      writeFileSync p
        (stringify_pretty (state_object cid inviteUrl lastSeenTimestampNs) ++ nl) m
  | _, _ => m
  end.

(** [loadPersistedState()]: [None] is the returned [null]. *)
Definition loadPersistedState (configPath : option string) (m : fs) : option jvalue :=
  match configPath with
  | None => None
  | Some p =>
      if negb (existsSync p m) then None
      else match readFileSync p m with
           | None => None
           | Some text => json_parse text
           end
  end.

(** [state?.key] on the loaded value: [None] is [undefined]. *)
Definition get_field (v : option jvalue) (k : string) : option jvalue :=
  match v with Some (JObj ms) => assoc_last k ms | _ => None end.

End Store.

(* ------------------------------------------------------------------ *)
(** ** The headless extension: line handler, [message] events,
       catch-up and the [before_agent_start] hook *)

Module Bridge.
Import Json Store.
Local Open Scope string_scope.

(** [${v}] in a template literal. *)
Definition js_str (v : jsval) : string :=
  match v with Undefined => "undefined" | Null => "null" | Str s => s end.

(** Path helpers. [join] is [a + "/" + b] (Node's normalisation never
    changes the final segment, which is all that is used below);
    [dirname] drops the final segment. *)
Definition path_join (a b : string) : string := a ++ "/" ++ b.

Fixpoint last_slash (s : string) (i : nat) (acc : option nat) : option nat :=
  match s with
  | EmptyString => acc
  | String c r => last_slash r (S i) (if Ascii.eqb c "/"%char then Some i else acc)
  end.

Definition dirname (p : string) : string :=
  match last_slash p 0 None with
  | None => "."
  | Some O => "/"
  | Some i => substring 0 i p
  end.

(** Process-wide constants read when the extension loads. *)
Record config := mkConfig {
  convosEnvFile : option string;   (* process.env.CONVOS_ENV_FILE || null *)
  worktreeRoot : option string     (* git rev-parse --show-toplevel *)
}.

(** [getConvosConfigPath()] *)
Definition getConvosConfigPath (cfg : config) : option string :=
  match convosEnvFile cfg with
  | Some e => Some (path_join (dirname e) "convos-session.json")
  | None =>
      match worktreeRoot cfg with
      | Some w => if String.eqb w "" then None
                  else Some (path_join (path_join w ".pi") "convos.json")
      | None => None
      end
  end.

(** Host calls: [pi.sendMessage(msg, { triggerTurn, deliverAs })] and
    [pi.sendUserMessage(content, { deliverAs })]; a user message always
    starts (or steers) a turn. *)
Inductive publish :=
| SendMessage (content : string) (triggerTurn : bool) (steer : bool)
| SendUserMessage (text : string) (image_mime : option string) (steer : bool).

Definition triggers_turn (p : publish) : bool :=
  match p with SendMessage _ t _ => t | SendUserMessage _ _ _ => true end.

Record bridge := mkBridge {
  isReady : bool;
  lastMessageFromConvos : bool;
  headlessMode : bool;
  conversationId : jsval;
  inviteUrl : jsval;
  lastSeenTimestampNs : jsval;
  ownInboxId : option string;
  files : fs;
  published : list publish
}.

Definition set_flag (v : bool) (b : bridge) : bridge :=
  mkBridge (isReady b) v (headlessMode b) (conversationId b) (inviteUrl b)
    (lastSeenTimestampNs b) (ownInboxId b) (files b) (published b).

Definition set_lastSeen (v : jsval) (b : bridge) : bridge :=
  mkBridge (isReady b) (lastMessageFromConvos b) (headlessMode b) (conversationId b)
    (inviteUrl b) v (ownInboxId b) (files b) (published b).

Definition set_own (v : option string) (b : bridge) : bridge :=
  mkBridge (isReady b) (lastMessageFromConvos b) (headlessMode b) (conversationId b)
    (inviteUrl b) (lastSeenTimestampNs b) v (files b) (published b).

Definition set_files (m : fs) (b : bridge) : bridge :=
  mkBridge (isReady b) (lastMessageFromConvos b) (headlessMode b) (conversationId b)
    (inviteUrl b) (lastSeenTimestampNs b) (ownInboxId b) m (published b).

Definition emit (p : publish) (b : bridge) : bridge :=
  mkBridge (isReady b) (lastMessageFromConvos b) (headlessMode b) (conversationId b)
    (inviteUrl b) (lastSeenTimestampNs b) (ownInboxId b) (files b) (published b ++ [p]).

(** [persistState()] on the bridge's variables. *)
Definition persist (cfg : config) (b : bridge) : bridge :=
  set_files (persistState (getConvosConfigPath cfg) (conversationId b) (inviteUrl b)
               (lastSeenTimestampNs b) (files b)) b.

(** [unlinkSync(p)] *)
Definition unlinkSync (p : string) (m : fs) : fs :=
  filter (fun e => negb (String.eqb (fst e) p)) m.

(** *** The attachment pattern
    [/^\[remote attachment: (.+?) \(.*?\) (https?:\/\/\S+)\]$/]: [None]
    when there is no match, else capture group 1 (the file name). *)

Definition is_line_terminator (c : ascii) : bool :=
  let n := nat_of_ascii c in Nat.eqb n 10 || Nat.eqb n 13.

Definition is_space (c : ascii) : bool :=
  let n := nat_of_ascii c in
  Nat.eqb n 32 || Nat.eqb n 9 || Nat.eqb n 10 || Nat.eqb n 11 || Nat.eqb n 12
  || Nat.eqb n 13 || Nat.eqb n 160.

(** [\S+\]$] : one or more non-space characters, then a final [\]]. *)
Fixpoint url_rest_ok (u : string) : bool :=
  match u with
  | EmptyString => false
  | String c r =>
      negb (is_space c) &&
      (match r with
       | String d EmptyString => Ascii.eqb d "]"%char
       | _ => false
       end || url_rest_ok r)
  end.

(** [https?:\/\/\S+\]$] *)
Definition url_tail_ok (t : string) : bool :=
  match strip_prefix "http" t with
  | Some t1 =>
      match strip_prefix "s://" t1 with
      | Some u => url_rest_ok u
      | None => false
      end ||
      match strip_prefix "://" t1 with
      | Some u => url_rest_ok u
      | None => false
      end
  | None => false
  end.

(** [.*?\) ] followed by the URL tail *)
Fixpoint middle_ok (s : string) : bool :=
  match strip_prefix ") " s with
  | Some t => url_tail_ok t
  | None => false
  end ||
  match s with
  | String c r => negb (is_line_terminator c) && middle_ok r
  | EmptyString => false
  end.

(** [(.+?) \(] : the shortest non-empty name after which the rest matches. *)
Fixpoint find_name (s : string) : option string :=
  match s with
  | EmptyString => None
  | String c r =>
      if is_line_terminator c then None
      else if match strip_prefix " (" r with Some r' => middle_ok r' | None => false end
      then Some (String c EmptyString)
      else match find_name r with
           | Some n => Some (String c n)
           | None => None
           end
  end.

Definition match_attachment (content : string) : option string :=
  match strip_prefix "[remote attachment: " content with
  | Some s => find_name s
  | None => None
  end.

Definition lower (c : ascii) : ascii :=
  let n := nat_of_ascii c in
  if Nat.leb 65 n && Nat.leb n 90 then ascii_of_nat (n + 32) else c.

Fixpoint lowercase (s : string) : string :=
  match s with
  | EmptyString => EmptyString
  | String c r => String (lower c) (lowercase r)
  end.

Fixpoint prefix_list (p l : list ascii) : bool :=
  match p, l with
  | [], _ => true
  | a :: p', b :: l' => Ascii.eqb a b && prefix_list p' l'
  | _ :: _, [] => false
  end.

Definition ends_with (suf s : string) : bool :=
  prefix_list (rev (list_ascii_of_string suf)) (rev (list_ascii_of_string s)).

Definition image_exts : list string := [".jpg"; ".jpeg"; ".png"; ".gif"; ".webp"; ".bmp"].

(** [/\.(jpg|jpeg|png|gif|webp|bmp)$/i.test(filename)] *)
Definition is_image (filename : string) : bool :=
  existsb (fun e => ends_with e (lowercase filename)) image_exts.

(** [filename.split(".").pop()?.toLowerCase()] and the MIME type. *)
Fixpoint after_last_dot (s : string) (cur : string) : string :=
  match s with
  | EmptyString => cur
  | String c r =>
      if Ascii.eqb c "."%char then after_last_dot r EmptyString
      else after_last_dot r (cur ++ String c EmptyString)
  end.

Definition mime_of (filename : string) : string :=
  let ext := lowercase (after_last_dot filename EmptyString) in
  if String.eqb ext "jpg" then "image/jpeg" else "image/" ++ ext.

(** *** [case "message"] *)

(** The fields of a [message] event the handler reads. *)
Record msg_event := mkMsg {
  m_id : string;
  m_senderInboxId : string;
  m_content : jsval;
  m_sentAtNs : jsval
}.

Definition plain_message (e : msg_event) : publish :=
  SendMessage ("[Convos message from " ++ m_senderInboxId e ++ "] " ++ js_str (m_content e))
    true true.

(** [dl] is what [convos conversation download-attachment] leaves at the
    output path: [None] when the command fails (execSync throws). *)
Definition handle_message (cfg : config) (dl : option string) (e : msg_event)
    (b : bridge) : bridge :=
  let b1 := set_flag true b in
  let b2 := if truthy (m_sentAtNs e)
            then persist cfg (set_lastSeen (m_sentAtNs e) b1) else b1 in
  let attachMatch :=
    match m_content e with Str c => match_attachment c | _ => None end in
  match attachMatch with
  | Some filename =>
      if truthy (conversationId b2) && is_image filename then
        let tmpDir := path_join (match worktreeRoot cfg with
                                 | Some w => w | None => "/tmp" end) ".pi" in
        let outputPath :=
          path_join tmpDir ("convos-attachment-" ++ m_id e ++ "-" ++ filename) in
        let failed :=
          SendMessage ("[Convos message from " ++ m_senderInboxId e ++ "] Sent an image ("
                       ++ filename ++ ") but download failed.") true true in
        match dl with
        | Some bytes =>
            let fs1 := writeFileSync outputPath bytes (files b2) in
            match readFileSync outputPath fs1 with
            | Some _ =>
                set_files (unlinkSync outputPath fs1)
                  (emit (SendUserMessage
                           ("[Convos image from " ++ m_senderInboxId e ++ "] " ++ filename)
                           (Some (mime_of filename)) true)
                     (set_flag true b2))
            | None => emit failed (set_files fs1 b2)
            end
        | None => emit failed b2
        end
      else emit (plain_message e) b2
  | None => emit (plain_message e) b2
  end.

(** *** [catchUpOnMissedMessages()] *)

(** [msg.content]: an object with a [text] member, a bare string, or
    absent. *)
Inductive fcontent := CObj (text : jsval) | CString (s : string) | CNone.

Record fetched := mkFetched {
  f_senderInboxId : string;
  f_content : fcontent;
  f_sentAtNs : jsval
}.

(** [msg.content?.text] *)
Definition content_text (c : fcontent) : jsval :=
  match c with CObj t => t | _ => Undefined end.

(** [msg.content?.text || msg.content] in the summary line *)
Definition summary_text (c : fcontent) : string :=
  match c with
  | CObj t => if truthy t then js_str t else "[object Object]"
  | CString s => s
  | CNone => "undefined"
  end.

Definition sender_differs (own : option string) (m : fetched) : bool :=
  match own with
  | Some o => negb (String.eqb (f_senderInboxId m) o)
  | None => true
  end.

Definition summary_line (m : fetched) : string :=
  "[" ++ f_senderInboxId m ++ "]: " ++ summary_text (f_content m).

(** [fetch] is the parsed output of [convos conversation messages ...
    --sent-after <watermark>] ([None]: the command or the parse threw);
    [own_lookup] is what [getOwnInboxId()] would return. *)
Definition catchUpOnMissedMessages (cfg : config) (fetch : option (list fetched))
    (own_lookup : option string) (b : bridge) : bridge :=
  if negb (truthy (conversationId b)) then b
  else match convosEnvFile cfg with
  | None => b
  | Some _ =>
  if negb (truthy (lastSeenTimestampNs b)) then b
  else match fetch with
  | None => b
  | Some [] => b
  | Some ((m0 :: _) as messages) =>
      let own := match ownInboxId b with
                 | Some o => if String.eqb o "" then own_lookup else Some o
                 | None => own_lookup
                 end in
      let b1 := set_own own b in
      let missed := filter (fun m => sender_differs own m
                                     && truthy (content_text (f_content m))) messages in
      match missed with
      | [] => b1
      | _ =>
          let summary := join nl (map summary_line missed) in
          let newest := last messages m0 in
          let b2 := if truthy (f_sentAtNs newest)
                    then persist cfg (set_lastSeen (f_sentAtNs newest) b1) else b1 in
          emit (SendUserMessage
                  ("[Missed Convos messages while you were offline]:" ++ nl ++ summary
                   ++ nl ++ nl ++ "Review these messages. If any need a response, reply via convos_send. Then continue with your work.")
                  None true)
               (set_flag true b2)
      end
  end
  end.

(** *** [pi.on("before_agent_start")]: the text appended to the system
    prompt, [None] when the hook returns nothing. *)

Definition convos_directive : string :=
  nl ++ nl ++ "The current message is from a Convos user. Reply using the convos_send tool. Do NOT use markdown — Convos renders plain text only.".

Definition terminal_directive : string :=
  nl ++ nl ++ "The current message is from the terminal. Respond normally as plain text output. Do NOT use convos_send or convos_react — those are only for Convos messages.".

Definition before_agent_start (b : bridge) (systemPrompt : string) : option string :=
  if negb (isReady b) then None
  else if headlessMode b then
    if lastMessageFromConvos b then Some (systemPrompt ++ convos_directive) else None
  else if lastMessageFromConvos b then Some (systemPrompt ++ convos_directive)
  else Some (systemPrompt ++ terminal_directive).

(** *** [rl.on("line")]: parse, then [switch (event.event)]. *)

Inductive event_kind := KReady | KMessage | KMemberJoined | KSent | KError.

(** [v.key] on a parsed value: [None] is a TypeError (property read on
    [null]); [Some None] is [undefined]. *)
Definition js_get (v : jvalue) (k : string) : option (option jvalue) :=
  match v with
  | JNull => None
  | JObj ms => Some (assoc_last k ms)
  | _ => Some None
  end.

Definition kind_of_tag (t : string) : option event_kind :=
  if String.eqb t "ready" then Some KReady
  else if String.eqb t "message" then Some KMessage
  else if String.eqb t "member_joined" then Some KMemberJoined
  else if String.eqb t "sent" then Some KSent
  else if String.eqb t "error" then Some KError
  else None.

Inductive line_outcome := Dropped | Dispatched (k : event_kind) | Threw.

Definition classify_line (line : string) : line_outcome :=
  match json_parse line with
  | None => Dropped                        (* catch { return; } *)
  | Some v =>
      match js_get v "event" with
      | None => Threw
      | Some (Some (JStr t)) =>
          match kind_of_tag t with Some k => Dispatched k | None => Dropped end
      | Some _ => Dropped
      end
  end.

(** Lines in order; an exception thrown by the listener escapes the
    readline emitter and ends the stream's processing. Returns the
    dispatched events and whether a listener threw. *)
Fixpoint process_lines (lines : list string) : list event_kind * bool :=
  match lines with
  | [] => ([], false)
  | l :: r =>
      match classify_line l with
      | Dropped => process_lines r
      | Dispatched k => let '(ks, t) := process_lines r in (k :: ks, t)
      | Threw => ([], true)
      end
  end.

(** [JSON.stringify({ event: tag })] *)
Definition event_line (tag : string) : string :=
  "{" ++ quote "event" ++ ":" ++ quote tag ++ "}".

(** Decimal value of a nanosecond timestamp string. *)
Fixpoint dec_value (s : string) (acc : Z) : option Z :=
  match s with
  | EmptyString => Some acc
  | String c r =>
      if is_digit c then dec_value r (acc * 10 + Z.of_nat (nat_of_ascii c - 48)%nat)
      else None
  end.

End Bridge.

(* ------------------------------------------------------------------ *)
(** ** Session start and stop, commands and tools *)

Module Extension.
Import Json Store Bridge.
Local Open Scope string_scope.

(** [JSON.stringify(v)]: no indentation, no spaces. *)
Fixpoint stringify_compact (v : jvalue) : string :=
  match v with
  | JNull => "null"
  | JBool true => "true"
  | JBool false => "false"
  | JNum z => string_of_Z z
  | JStr s => quote s
  | JArr xs => "[" ++ join "," (map stringify_compact xs) ++ "]"
  | JObj ms =>
      "{" ++ join "," (map (fun kv => quote (fst kv) ++ ":" ++ stringify_compact (snd kv)) ms)
          ++ "}"
  end.

(** JS truthiness of a parsed value, and of a possibly [undefined] one. *)
Definition jtruthy (v : jvalue) : bool :=
  match v with
  | JNull => false
  | JBool b => b
  | JNum z => negb (Z.eqb z 0)
  | JStr s => negb (String.eqb s "")
  | JArr _ | JObj _ => true
  end.

Definition otruthy (o : option jvalue) : bool :=
  match o with Some v => jtruthy v | None => false end.

(** *** [getDefaultConversationName()] *)

(** [s.split(c)] for a one-character separator. *)
Fixpoint split_on (c : ascii) (s : string) : list string :=
  match s with
  | EmptyString => [EmptyString]
  | String d r =>
      let parts := split_on c r in
      if Ascii.eqb d c then EmptyString :: parts
      else match parts with
           | p :: ps => String d p :: ps
           | [] => [String d EmptyString]
           end
  end.

(** [worktreeRoot ? worktreeRoot.split("/").pop() ?? "project" : "project"] *)
Definition projectName (worktreeRoot : option string) : string :=
  match worktreeRoot with
  | Some w => if String.eqb w "" then "project" else last (split_on "/"%char w) "project"
  | None => "project"
  end.

Definition branch_prefixes : list string :=
  ["feature"; "fix"; "bugfix"; "hotfix"; "chore"; "refactor"; "docs"].

(** A lower-case ASCII pattern matched case-insensitively at the start. *)
Fixpoint strip_ci (p s : string) : option string :=
  match p, s with
  | EmptyString, _ => Some s
  | String a p', String c s' => if Ascii.eqb a (lower c) then strip_ci p' s' else None
  | String _ _, EmptyString => None
  end.

(** [.replace(/^(feature|fix|bugfix|hotfix|chore|refactor|docs)\//i, empty)] *)
Fixpoint strip_branch_prefix (ps : list string) (s : string) : string :=
  match ps with
  | [] => s
  | p :: rest =>
      match strip_ci (p ++ "/") s with
      | Some t => t
      | None => strip_branch_prefix rest s
      end
  end.

(** [.replace(/[-_/]/g, " ")] *)
Fixpoint seps_to_spaces (s : string) : string :=
  match s with
  | EmptyString => EmptyString
  | String c r =>
      String (if Ascii.eqb c "-"%char || Ascii.eqb c "_"%char || Ascii.eqb c "/"%char
              then " "%char else c) (seps_to_spaces r)
  end.

(** [.split(" ").slice(0, 2).join(" ")] of the above *)
Definition branch_summary (branch : string) : string :=
  join " " (firstn 2 (split_on " "%char
                        (seps_to_spaces (strip_branch_prefix branch_prefixes branch)))).

(** The separator of the template [`${projectName} — ${summary}`]. *)
Definition name_sep : string := " — ".

(** [branch] is the trimmed output of [git rev-parse --abbrev-ref HEAD],
    [None] when the command throws. *)
Definition getDefaultConversationName (worktreeRoot : option string) (branch : option string)
  : string :=
  match branch with
  | Some br =>
      if negb (String.eqb br "") && negb (String.eqb br "main")
         && negb (String.eqb br "master") && negb (String.eqb br "HEAD")
      then projectName worktreeRoot ++ name_sep ++ branch_summary br
      else projectName worktreeRoot
  | None => projectName worktreeRoot
  end.

(** [convosName || getDefaultConversationName()] ([CONVOS_NAME || null]). *)
Definition name_or_default (convosName : option string) (dflt : string) : string :=
  match convosName with
  | Some n => if String.eqb n "" then dflt else n
  | None => dflt
  end.

(** *** [/convos-start] argument splitting *)

(** The rest of the first regex alternative (a double quote, non-quote
    characters, a double quote) after its opening quote: the body and the
    input after the closing quote, [None] when no closing quote follows. *)
Fixpoint take_quoted (s : string) : option (string * string) :=
  match s with
  | EmptyString => None
  | String c r =>
      if Ascii.eqb c dquote then Some (EmptyString, r)
      else match take_quoted r with
           | Some (x, r') => Some (String c x, r')
           | None => None
           end
  end.

(** [\S+]: the longest run of non-space characters. *)
Fixpoint take_run (s : string) : string * string :=
  match s with
  | EmptyString => (EmptyString, EmptyString)
  | String c r =>
      if is_space c then (EmptyString, s)
      else let '(x, r') := take_run r in (String c x, r')
  end.

(** [args.match(re)] with the global regex whose alternatives are a
    double-quoted run of non-quote characters and [\S+]: the matches, left
    to right (the quoted alternative is tried first at each position). *)
Fixpoint arg_matches (fuel : nat) (s : string) : list string :=
  match fuel with
  | O => []
  | S f =>
      match s with
      | EmptyString => []
      | String c r =>
          if Ascii.eqb c dquote then
            match take_quoted r with
            | Some (x, r') => String dquote (x ++ chr dquote) :: arg_matches f r'
            | None => let '(x, r') := take_run s in x :: arg_matches f r'
            end
          else if is_space c then arg_matches f r
          else let '(x, r') := take_run s in x :: arg_matches f r'
      end
  end.

Fixpoint drop_final_quote (s : string) : string :=
  match s with
  | EmptyString => EmptyString
  | String c EmptyString => if Ascii.eqb c dquote then EmptyString else s
  | String c r => String c (drop_final_quote r)
  end.

(** [a.replace(re, empty)] where [re] is a double quote at the start or
    at the end (global): drops a leading and a trailing double quote. *)
Definition strip_quotes (a : string) : string :=
  match a with
  | EmptyString => EmptyString
  | String c r => if Ascii.eqb c dquote then drop_final_quote r else drop_final_quote a
  end.

(** [args ? args.match(...)?.map(strip) ?? [] : []] *)
Definition parse_args (args : string) : list string :=
  if String.eqb args "" then []
  else map strip_quotes (arg_matches (S (String.length args)) args).

(** [a.startsWith("-")] *)
Definition starts_with_dash (a : string) : bool :=
  match a with String c _ => Ascii.eqb c "-"%char | EmptyString => false end.

(** [loadPersistedState()?.conversationId ?? null]: [None] is [null]. *)
Definition loadPersistedConversation (cfg : config) (m : fs) : option jvalue :=
  match get_field (loadPersistedState (getConvosConfigPath cfg) m) "conversationId" with
  | Some JNull | None => None
  | Some v => Some v
  end.

(** What the [/convos-start] handler does: warn that an agent runs, report
    the missing CLI, or call [startAgent] with these arguments (the values
    pushed on [argList]; the UI notifications are left out). *)
Inductive start_result := AlreadyRunning | CliMissing | StartAgent (argv : list jvalue).

Definition convos_start (cfg : config) (convosName : option string)
    (convosProfileName : string) (branch : option string)
    (agent_running cli_found : bool) (args : string) (m : fs) : start_result :=
  if agent_running then AlreadyRunning
  else if negb cli_found then CliMissing
  else
    let argList := parse_args args in
    let hasConversationArg := existsb (fun a => negb (starts_with_dash a)) argList in
    let persistedId := loadPersistedConversation cfg m in
    match hasConversationArg, persistedId with
    | false, Some v =>
        if jtruthy v then StartAgent (v :: map JStr argList)       (* argList.unshift *)
        else StartAgent (map JStr (argList ++
               ["--name"; name_or_default convosName
                            (getDefaultConversationName (worktreeRoot cfg) branch);
                "--profile-name"; convosProfileName]))
    | false, None =>
        StartAgent (map JStr (argList ++
          ["--name"; name_or_default convosName
                       (getDefaultConversationName (worktreeRoot cfg) branch);
           "--profile-name"; convosProfileName]))
    | true, _ => StartAgent (map JStr argList)
    end.

(** *** [pi.on("session_start")] in headless mode *)

(** [NotHeadless]: the session has a UI and the handler returns at once;
    otherwise [headlessMode] is set and the handler stops when [which
    convos] fails ([CliNotFound]), stops in its catch when [convos init]
    throws ([AutoStartFailed]), or calls [startAgent(args)]. *)
Inductive auto_start := NotHeadless | CliNotFound | AutoStartFailed
                      | AutoStarted (argv : list jvalue).

(** Also returns the value assigned to [lastSeenTimestampNs] from the
    saved state, [None] when none is assigned. [init_ok] is whether
    [convos init] succeeds when [ensureConvosInit] runs it. *)
Definition session_start (hasUI cli_found init_ok : bool) (cfg : config)
    (convosName : option string) (convosProfileName : string) (branch : option string)
    (m : fs) : auto_start * option jvalue :=
  if hasUI then (NotHeadless, None)
  else if negb cli_found then (CliNotFound, None)
  else
    let init_threw :=
      match convosEnvFile cfg with
      | Some e => negb (existsSync e m) && negb init_ok
      | None => false
      end in
    if init_threw then (AutoStartFailed, None)
    else
      let envArgs := match convosEnvFile cfg with
                     | Some e => [JStr "--env-file"; JStr e]
                     | None => []
                     end in
      let savedState := loadPersistedState (getConvosConfigPath cfg) m in
      let ls := get_field savedState "lastSeenTimestampNs" in
      let restored := if otruthy ls then ls else None in
      match get_field savedState "conversationId" with
      | Some cid =>
          if jtruthy cid then (AutoStarted (envArgs ++ [cid]), restored)
          else (AutoStarted (envArgs ++ map JStr
                  ["--name"; name_or_default convosName
                               (getDefaultConversationName (worktreeRoot cfg) branch);
                   "--profile-name"; convosProfileName]), restored)
      | None =>
          (AutoStarted (envArgs ++ map JStr
             ["--name"; name_or_default convosName
                          (getDefaultConversationName (worktreeRoot cfg) branch);
              "--profile-name"; convosProfileName]), restored)
      end.

Definition set_ready (v : bool) (b : bridge) : bridge :=
  mkBridge v (lastMessageFromConvos b) (headlessMode b) (conversationId b) (inviteUrl b)
    (lastSeenTimestampNs b) (ownInboxId b) (files b) (published b).

(** [pi.on("session_shutdown")]: in headless mode the watermark is set to
    [String(Date.now() * 1_000_000)] ([now_ns]) and persisted; then
    [stopAgent()], which clears [isReady] when a process is live (the
    bridge keeps its own copy of [isReady] for the hooks). *)
Definition session_shutdown (cfg : config) (now_ns : string) (s : Supervisor.sup)
    (b : bridge) : Supervisor.sup * bridge :=
  let b1 := if headlessMode b then persist cfg (set_lastSeen (Str now_ns) b) else b in
  (Supervisor.stopAgent s,
   if Supervisor.agentProcess s then set_ready false b1 else b1).

(** [pi.on("input")] *)
Definition on_input (source : string) (b : bridge) : bridge :=
  if String.eqb source "interactive" then set_flag false b else b.

(** *** Tools *)

Record tool_result := mkResult { result_text : string; isError : bool }.

(** [stdinWriter(cmd)]: one JSON line on the child's stdin. *)
Definition write_json (s : Supervisor.sup) (cmd : jvalue) : Supervisor.sup :=
  Supervisor.write_cmd s (stringify_compact cmd ++ nl).

(** [!stdinWriter || !isReady] (the supervisor's variables). *)
Definition agent_down (s : Supervisor.sup) : bool :=
  negb (Supervisor.stdinWriter s) || negb (Supervisor.isReady s).

Definition opt_member_str (k : string) (v : option string) : list (string * jvalue) :=
  match v with
  | Some x => if String.eqb x "" then [] else [(k, JStr x)]
  | None => []
  end.

(** [{ type: "send", text }] plus [replyTo] when it is truthy. *)
Definition send_cmd (text : string) (replyTo : option string) : jvalue :=
  JObj ([("type", JStr "send"); ("text", JStr text)] ++ opt_member_str "replyTo" replyTo).

Definition reply_suffix (replyTo : option string) : string :=
  match replyTo with
  | Some r => if String.eqb r "" then "" else " (reply to " ++ r ++ ")"
  | None => ""
  end.

(** [convos_send.execute]; [now_ns] is [String(Date.now() * 1_000_000)]. *)
Definition convos_send (cfg : config) (now_ns : string) (text : string)
    (replyTo : option string) (s : Supervisor.sup) (b : bridge)
  : tool_result * Supervisor.sup * bridge :=
  if agent_down s then
    (mkResult (if headlessMode b then "Convos agent is not running."
               else "Convos agent is not running. Use /convos-start to start it.") true,
     s, b)
  else
    let s1 := write_json s (send_cmd text replyTo) in
    let b1 := persist cfg (set_lastSeen (Str now_ns) b) in
    (mkResult ("Sent: " ++ chr dquote ++ text ++ chr dquote ++ reply_suffix replyTo) false,
     s1, b1).

(** [{ type: "react", messageId, emoji }] plus [action] when truthy. *)
Definition react_cmd (messageId emoji : string) (action : option string) : jvalue :=
  JObj ([("type", JStr "react"); ("messageId", JStr messageId); ("emoji", JStr emoji)]
        ++ opt_member_str "action" action).

(** [convos_react.execute] *)
Definition convos_react (messageId emoji : string) (action : option string)
    (s : Supervisor.sup) : tool_result * Supervisor.sup :=
  if agent_down s then (mkResult "Convos agent is not running." true, s)
  else (mkResult ("Reacted with " ++ emoji ++ " to message " ++ messageId) false,
        write_json s (react_cmd messageId emoji action)).

End Extension.

(* ================================================================== *)
(** * Theorems *)

Module SupervisorFacts.
Import Supervisor.

Lemma push_stderr_skipn (buf : list string) (l : string) :
  (length buf <= 50)%nat ->
  push_stderr buf l = skipn (length (buf ++ [l]) - 50) (buf ++ [l]).
Proof.
  intros H. unfold push_stderr, stderr_cap.
  rewrite length_app; simpl.
  destruct (Nat.ltb_spec 50 (length buf + 1)) as [Hlt|Hge].
  - replace (length buf + 1 - 50)%nat with 1%nat by lia.
    destruct (buf ++ [l]); reflexivity.
  - replace (length buf + 1 - 50)%nat with 0%nat by lia. reflexivity.
Qed.

Lemma push_stderr_length (buf : list string) (l : string) :
  (length buf <= 50)%nat -> (length (push_stderr buf l) <= 50)%nat.
Proof.
  intros H. rewrite push_stderr_skipn by exact H.
  rewrite length_skipn, length_app; simpl. lia.
Qed.

Lemma fold_push_stderr (ls buf : list string) :
  (length buf <= 50)%nat ->
  fold_left push_stderr ls buf = skipn (length (buf ++ ls) - 50) (buf ++ ls).
Proof.
  revert buf. induction ls as [|l ls IH]; intros buf H; simpl.
  - rewrite app_nil_r. replace (length buf - 50)%nat with 0%nat by lia.
    reflexivity.
  - rewrite IH by (apply push_stderr_length; exact H).
    rewrite (push_stderr_skipn buf l H).
    set (X := buf ++ [l]).
    assert (HX : buf ++ l :: ls = X ++ ls)
      by (unfold X; rewrite <- app_assoc; reflexivity).
    rewrite HX.
    assert (Hk : (length X - 50 <= length X)%nat) by lia.
    assert (Happ : skipn (length X - 50) X ++ ls = skipn (length X - 50) (X ++ ls)).
    { rewrite skipn_app. replace (length X - 50 - length X)%nat with 0%nat by lia.
      reflexivity. }
    rewrite Happ, skipn_skipn, length_skipn, length_app.
    assert (HlX : length X = (length buf + 1)%nat)
      by (unfold X; rewrite length_app; reflexivity).
    f_equal. lia.
Qed.

Lemma run_stderr (ls : list string) (s : sup) :
  run (map EvStderr ls) s =
  {| agentProcess := agentProcess s; stdinWriter := stdinWriter s;
     isReady := isReady s; rl_open := rl_open s;
     stdin_writable := stdin_writable s; child_exited := child_exited s;
     stderrLines := fold_left push_stderr ls (stderrLines s);
     timers := timers s; now := now s; stdin_log := stdin_log s;
     signals := signals s; notices := notices s |}.
Proof.
  unfold run. revert s. induction ls as [|l ls IH]; intros s; simpl.
  - destruct s; reflexivity.
  - rewrite IH. reflexivity.
Qed.

(** Invariant of a run that sees neither a ready line nor the exit. *)
Lemma fold_kill_flags (xs : list Z) (s : sup) :
  isReady (fold_left (fun s' _ => kill s') xs s) = isReady s /\
  child_exited (fold_left (fun s' _ => kill s') xs s) = child_exited s /\
  notices (fold_left (fun s' _ => kill s') xs s) = notices s.
Proof.
  revert s. induction xs as [|x xs IH]; intros s; simpl; [repeat split|].
  destruct (IH (kill s)) as (H1 & H2 & H3). rewrite H1, H2, H3.
  unfold kill. destruct (child_exited s) eqn:E; simpl; rewrite ?E; repeat split.
Qed.

Lemma step_before_ready (e : ev) (s : sup) :
  is_ready_or_exit e = false ->
  isReady s = false -> child_exited s = false ->
  isReady (step s e) = false /\ child_exited (step s e) = false /\
  notices (step s e) = notices s.
Proof.
  intros He Hr Hx.
  destruct e; simpl in He; try discriminate; simpl.
  - repeat split; assumption.
  - unfold stopAgent, write_cmd.
    destruct (agentProcess s), (stdinWriter s && stdin_writable s);
      simpl; repeat split; assumption.
  - unfold advance.
    edestruct fold_kill_flags as (H1 & H2 & H3).
    rewrite H1, H2, H3. simpl. repeat split; assumption.
Qed.

Lemma run_before_ready (evs : list ev) (s : sup) :
  forallb (fun e => negb (is_ready_or_exit e)) evs = true ->
  isReady s = false -> child_exited s = false ->
  isReady (run evs s) = false /\ child_exited (run evs s) = false /\
  notices (run evs s) = notices s.
Proof.
  unfold run. revert s.
  induction evs as [|e evs IH]; intros s Hall Hr Hx; simpl in Hall |- *.
  - repeat split; assumption.
  - apply andb_prop in Hall as [He Hall].
    apply negb_true_iff in He.
    destruct (step_before_ready e s He Hr Hx) as (H1 & H2 & H3).
    destruct (IH (step s e) Hall H1 H2) as (H4 & H5 & H6).
    rewrite H6, H3. repeat split; assumption.
Qed.

End SupervisorFacts.

Module SupervisorClaims.
Import Supervisor SupervisorFacts.

(** C6: whatever lines arrive on the error stream, the diagnostic buffer
    holds at most 50 of them, and exactly the most recent ones in arrival
    order (the oldest is evicted first). *)
Theorem stderr_buffer_last_50 (lines : list string) :
  let buf := stderrLines (run (map EvStderr lines) start) in
  (length buf <= 50)%nat /\ buf = skipn (length lines - 50) lines.
Proof.
  simpl. rewrite run_stderr. simpl.
  rewrite fold_push_stderr by (simpl; lia). simpl.
  split; [|reflexivity].
  rewrite length_skipn. lia.
Qed.

(** C3: [stopAgent] on a live child arms one 2000 ms kill timer; if the
    child exits before it fires (after [d1 < 2000] ms) no SIGTERM is ever
    delivered; if it has not exited when the timer fires, exactly one
    SIGTERM is delivered; with no live child [stopAgent] changes nothing. *)
Theorem stop_grace_timer (s : sup) (c : exit_code) (d1 d2 d d' : Z) :
  agentProcess s = true -> child_exited s = false -> timers s = [] ->
  0 <= d1 < 2000 -> 0 <= d2 -> 2000 <= d -> 0 <= d' ->
  signals (run [EvStop; EvAdvance d1; EvExit c; EvAdvance d2] s) = signals s /\
  signals (run [EvStop; EvAdvance d; EvAdvance d'] s) = S (signals s) /\
  signals (run [EvStop; EvAdvance d; EvExit c; EvAdvance d'] s) = S (signals s) /\
  (forall s', agentProcess s' = false -> step s' EvStop = s').
Proof.
  intros Hp Hx Ht Hd1 Hd2 Hd Hd'.
  destruct s as [ap sw rd ro wr ex buf tm t log sg nt]; simpl in *; subst.
  unfold run; simpl.
  unfold stopAgent, write_cmd; simpl.
  repeat split;
    try (destruct (sw && wr); unfold advance; simpl;
         repeat (match goal with
                 | |- context [?a <=? ?b] =>
                     destruct (Z.leb_spec a b); [try lia | try lia]
                 end; simpl);
         reflexivity).
  - intros s' H'. simpl. unfold stopAgent. rewrite H'. reflexivity.
Qed.


Lemma stop_grace_timer_witness :
  (agentProcess start = true /\ child_exited start = false /\ timers start = [] /\
   0 <= 500 < 2000 /\ 0 <= 3000 /\ 2000 <= 2000 /\ 0 <= 0) /\
  (signals (run [EvStop; EvAdvance 500; EvExit (Some 0); EvAdvance 3000] start)
     = signals start /\
   signals (run [EvStop; EvAdvance 2000; EvAdvance 0] start) = S (signals start) /\
   signals (run [EvStop; EvAdvance 2000; EvExit (Some 0); EvAdvance 0] start)
     = S (signals start) /\
   (forall s', agentProcess s' = false -> step s' EvStop = s')).
Proof.
  split; [repeat split; lia|].
  apply (stop_grace_timer start (Some 0) 500 3000 2000 0);
    first [reflexivity | lia].
Defined.

(** C4 (defect): a child that reached [ready] and is then stopped with
    [stopAgent] and exits with code 1 is reported as a startup failure
    ("exited with code 1 before becoming ready"), not with the
    informational exit notice, because [stopAgent] clears [isReady]
    before the exit handler reads it as [wasReady]. *)
Theorem ready_then_stopped_exit_reported_as_startup_failure :
  notices (run [EvReady; EvStop; EvExit (Some 1)] start)
    = [StartupFailure (Some 1) []].
Proof. reflexivity. Qed.

(** C9 (counterexample): a child killed by a signal before [ready] exits
    with code [null], which the handler treats as non-zero and reports. *)
Lemma exit_null_before_ready_not_silent :
  notices (run [EvExit None] start) <> [].
Proof. discriminate. Qed.

(** C9 (amended): for a child that exits before any [ready] line, an exit
    code of 0 publishes nothing, while an exit code of [null] (terminated
    by a signal) or any non-zero code publishes a startup failure carrying
    the current diagnostic buffer. *)
Theorem exit_before_ready_zero_silent_else_failure (evs : list ev) :
  forallb (fun e => negb (is_ready_or_exit e)) evs = true ->
  notices (run (evs ++ [EvExit (Some 0)]) start) = [] /\
  notices (run (evs ++ [EvExit None]) start)
    = [StartupFailure None (stderrLines (run evs start))] /\
  (forall k, k <> 0 ->
     notices (run (evs ++ [EvExit (Some k)]) start)
       = [StartupFailure (Some k) (stderrLines (run evs start))]).
Proof.
  intros Hall.
  destruct (run_before_ready evs start Hall eq_refl eq_refl) as (Hr & Hx & Hn).
  unfold run in *.
  split; [|split; [|intros k Hk]];
    rewrite fold_left_app; simpl; rewrite Hx; unfold on_exit; rewrite Hr, Hn;
    [reflexivity|reflexivity|].
  destruct k; [congruence|reflexivity|reflexivity].
Qed.

Lemma exit_before_ready_zero_silent_else_failure_witness :
  forallb (fun e => negb (is_ready_or_exit e))
    [EvStderr "boom"%string; EvAdvance 10] = true /\
  notices (run ([EvStderr "boom"%string; EvAdvance 10] ++ [EvExit (Some 0)]) start) = [] /\
  notices (run ([EvStderr "boom"%string; EvAdvance 10] ++ [EvExit None]) start)
    = [StartupFailure None
         (stderrLines (run [EvStderr "boom"%string; EvAdvance 10] start))] /\
  (forall k, k <> 0 ->
     notices (run ([EvStderr "boom"%string; EvAdvance 10] ++ [EvExit (Some k)]) start)
       = [StartupFailure (Some k)
            (stderrLines (run [EvStderr "boom"%string; EvAdvance 10] start))]).
Proof.
  split; [reflexivity|].
  apply exit_before_ready_zero_silent_else_failure. reflexivity.
Defined.

End SupervisorClaims.

Module JsonFacts.
Import Json.
Local Open Scope string_scope.

Lemma app_assoc_str (a b c : string) : (a ++ b) ++ c = a ++ (b ++ c).
Proof. induction a as [|x a IH]; simpl; [reflexivity|now rewrite IH]. Qed.

Lemma length_app_str (a b : string) :
  String.length (a ++ b) = (String.length a + String.length b)%nat.
Proof. induction a as [|x a IH]; simpl; [reflexivity|now rewrite IH]. Qed.

Lemma escape_char_parse (c : ascii) (r : string) :
  parse_string_body (escape_char c ++ r) = cons_res c (parse_string_body r).
Proof.
  destruct c as [[] [] [] [] [] [] [] []]; reflexivity.
Qed.

Lemma escape_parse (s r : string) :
  parse_string_body (escape s ++ String dquote r) = Some (s, r).
Proof.
  induction s as [|c s IH]; [reflexivity|].
  simpl escape. rewrite app_assoc_str, escape_char_parse, IH. reflexivity.
Qed.

Definition scalar (v : jvalue) : bool :=
  match v with JNull | JStr _ => true | _ => false end.

Definition member_sep : string := "," ++ nl ++ "  ".

Definition fmt_member (kv : string * jvalue) : string :=
  quote (fst kv) ++ ": " ++ stringify_at "  " (snd kv).

Lemma parse_scalar_value (v : jvalue) (f : nat) (ind T : string) :
  scalar v = true ->
  parse_value (S f) (String " "%char (stringify_at ind v ++ T)) = Some (v, T).
Proof.
  destruct v; simpl; intros H; try discriminate.
  - reflexivity.
  - unfold quote. simpl. rewrite app_assoc_str. simpl.
    rewrite escape_parse. reflexivity.
Qed.

Lemma parse_member_last (k : string) (v : jvalue) (f : nat) (r : string) :
  scalar v = true ->
  parse_members (S (S f)) (fmt_member (k, v) ++ nl ++ "}" ++ r) = Some ([(k, v)], r).
Proof.
  intros Hv. unfold fmt_member, quote; simpl fst; simpl snd.
  rewrite !app_assoc_str. simpl.
  rewrite app_assoc_str. simpl. rewrite escape_parse.
  destruct v; simpl in Hv; try discriminate; [reflexivity|].
  simpl. rewrite app_assoc_str. simpl. rewrite escape_parse. reflexivity.
Qed.

Lemma parse_member_more (k : string) (v : jvalue) (f : nat) (T : string) :
  scalar v = true ->
  parse_members (S (S f)) (fmt_member (k, v) ++ member_sep ++ T) =
  match parse_members (S f) (nl ++ "  " ++ T) with
  | Some (ms, r5) => Some ((k, v) :: ms, r5)
  | None => None
  end.
Proof.
  intros Hv. unfold fmt_member, quote, member_sep; simpl fst; simpl snd.
  rewrite !app_assoc_str. simpl.
  rewrite app_assoc_str. simpl. rewrite escape_parse.
  destruct v; simpl in Hv; try discriminate; [reflexivity|].
  simpl. rewrite app_assoc_str. simpl. rewrite escape_parse. reflexivity.
Qed.

Lemma parse_members_ws (f : nat) (X : string) :
  parse_members (S f) (nl ++ "  " ++ X) = parse_members (S f) X.
Proof. reflexivity. Qed.

Lemma parse_members_print (ms : list (string * jvalue)) (f : nat) (r : string) :
  ms <> [] -> forallb (fun kv => scalar (snd kv)) ms = true -> (length ms < f)%nat ->
  parse_members f (nl ++ "  " ++ join member_sep (map fmt_member ms) ++ nl ++ "}" ++ r)
    = Some (ms, r).
Proof.
  revert f. induction ms as [|[k v] rest IH]; intros f Hne Hall Hf; [congruence|].
  simpl in Hall. apply andb_prop in Hall as [Hv Hall].
  destruct f as [|f]; [simpl in Hf; lia|].
  rewrite parse_members_ws.
  destruct rest as [|y rest'].
  - destruct f as [|f]; [simpl in Hf; lia|].
    apply parse_member_last. exact Hv.
  - change (join member_sep (map fmt_member ((k, v) :: y :: rest')))
      with (fmt_member (k, v) ++ member_sep ++ join member_sep (map fmt_member (y :: rest'))).
    rewrite !app_assoc_str.
    destruct f as [|f]; [simpl in Hf; lia|].
    rewrite parse_member_more by exact Hv.
    rewrite IH; [reflexivity|discriminate|exact Hall|simpl in *; lia].
Qed.

Lemma join_members_length (ms : list (string * jvalue)) :
  (length ms <= String.length (join member_sep (map fmt_member ms)))%nat.
Proof.
  induction ms as [|x rest IH]; [simpl; lia|].
  destruct rest as [|y rest'].
  - simpl. unfold fmt_member, quote. simpl. lia.
  - change (join member_sep (map fmt_member (x :: y :: rest')))
      with (fmt_member x ++ member_sep ++ join member_sep (map fmt_member (y :: rest'))).
    assert (Hx : (1 <= String.length (fmt_member x))%nat)
      by (unfold fmt_member, quote; simpl; lia).
    rewrite !length_app_str. change (String.length member_sep) with 4%nat.
    simpl length in *. lia.
Qed.

(** [JSON.parse(JSON.stringify(o, null, 2) + "\n")] gives back a flat
    object whose members hold strings or null. *)
Lemma json_parse_stringify_flat (ms : list (string * jvalue)) :
  ms <> [] -> forallb (fun kv => scalar (snd kv)) ms = true ->
  json_parse (stringify_pretty (JObj ms) ++ nl) = Some (JObj ms).
Proof.
  intros Hne Hall.
  destruct ms as [|x rest]; [congruence|].
  change (stringify_pretty (JObj (x :: rest)))
    with ("{" ++ nl ++ "  " ++ join member_sep (map fmt_member (x :: rest)) ++ nl ++ "}").
  assert (HJ : exists J', join member_sep (map fmt_member (x :: rest)) = String dquote J').
  { destruct rest; simpl; unfold fmt_member, quote; simpl; eexists; reflexivity. }
  destruct HJ as [J' HJ'].
  pose proof (join_members_length (x :: rest)) as Hlen.
  remember (join member_sep (map fmt_member (x :: rest))) as J eqn:HJdef.
  unfold json_parse.
  rewrite !app_assoc_str.
  set (N := String.length _).
  assert (HN : (length (x :: rest) < N)%nat).
  { unfold N. rewrite !length_app_str. cbn [String.length]. lia. }
  clearbody N.
  assert (Hm : parse_members N (nl ++ "  " ++ J ++ nl ++ "}" ++ nl) = Some (x :: rest, nl)).
  { rewrite HJdef. apply parse_members_print; [discriminate|exact Hall|exact HN]. }
  subst J. rewrite HJ' in Hm |- *. simpl in Hm |- *. rewrite Hm. reflexivity.
Qed.

End JsonFacts.

Module StoreClaims.
Import Json Store JsonFacts.
Local Open Scope string_scope.

Lemma state_object_flat (cid : string) (inv ls : jsval) :
  exists ms, state_object cid inv ls = JObj ms /\ ms <> [] /\
             forallb (fun kv => scalar (snd kv)) ms = true.
Proof.
  eexists; split; [reflexivity|].
  split; [discriminate|].
  destruct inv, ls; reflexivity.
Qed.

Lemma fs_lookup_write (p c : string) (m : fs) :
  fs_lookup p (writeFileSync p c m) = Some (FText c).
Proof. unfold writeFileSync. simpl. rewrite String.eqb_refl. reflexivity. Qed.

(** C7: with a configured state path, [persistState] for a session whose
    [conversationId] is set, followed by [loadPersistedState], gives back
    the written record, with the same [conversationId], [inviteUrl] and
    [lastSeenTimestampNs]; and [loadPersistedState] returns [null] (never
    throws) when there is no path, no file, an unreadable file, or text
    that [JSON.parse] rejects. *)
Theorem save_then_load_roundtrip (p : string) (m : fs) (cid : string)
    (inviteUrl lastSeen : jsval) :
  cid <> "" ->
  let loaded :=
    loadPersistedState (Some p) (persistState (Some p) (Str cid) inviteUrl lastSeen m) in
  loaded = Some (state_object cid inviteUrl lastSeen) /\
  get_field loaded "conversationId" = Some (JStr cid) /\
  get_field loaded "inviteUrl" = jsval_json inviteUrl /\
  get_field loaded "lastSeenTimestampNs" = jsval_json lastSeen /\
  (forall m', loadPersistedState None m' = None) /\
  (forall q m', fs_lookup q m' = None -> loadPersistedState (Some q) m' = None) /\
  (forall q m', fs_lookup q m' = Some FUnreadable -> loadPersistedState (Some q) m' = None) /\
  (forall q m' text, fs_lookup q m' = Some (FText text) -> json_parse text = None ->
     loadPersistedState (Some q) m' = None).
Proof.
  intros Hcid loaded.
  assert (Hl : loaded = Some (state_object cid inviteUrl lastSeen)).
  { unfold loaded, persistState, truthy.
    apply String.eqb_neq in Hcid. rewrite Hcid. cbn [negb].
    unfold loadPersistedState, existsSync, readFileSync.
    rewrite fs_lookup_write.
    destruct (state_object_flat cid inviteUrl lastSeen) as (ms & Hms & Hne & Hall).
    rewrite Hms. apply json_parse_stringify_flat; assumption. }
  rewrite Hl.
  split; [reflexivity|].
  split; [destruct inviteUrl, lastSeen; reflexivity|].
  split; [destruct inviteUrl, lastSeen; reflexivity|].
  split; [destruct inviteUrl, lastSeen; reflexivity|].
  split; [reflexivity|].
  split; [intros q m' H; unfold loadPersistedState, existsSync; rewrite H; reflexivity|].
  split; [intros q m' H; unfold loadPersistedState, existsSync, readFileSync;
          rewrite H; reflexivity|].
  intros q m' text H Hp. unfold loadPersistedState, existsSync, readFileSync.
  rewrite H. exact Hp.
Qed.

Lemma save_then_load_roundtrip_witness :
  "conv-1" <> "" /\
  (let loaded :=
     loadPersistedState (Some "/w/.pi/convos.json")
       (persistState (Some "/w/.pi/convos.json") (Str "conv-1")
          (Str "https://convos.org/i/x") Null []) in
   loaded = Some (state_object "conv-1" (Str "https://convos.org/i/x") Null) /\
   get_field loaded "conversationId" = Some (JStr "conv-1") /\
   get_field loaded "inviteUrl" = jsval_json (Str "https://convos.org/i/x") /\
   get_field loaded "lastSeenTimestampNs" = jsval_json Null /\
   (forall m', loadPersistedState None m' = None) /\
   (forall q m', fs_lookup q m' = None -> loadPersistedState (Some q) m' = None) /\
   (forall q m', fs_lookup q m' = Some FUnreadable -> loadPersistedState (Some q) m' = None) /\
   (forall q m' text, fs_lookup q m' = Some (FText text) -> json_parse text = None ->
      loadPersistedState (Some q) m' = None)).
Proof.
  split; [discriminate|].
  apply (save_then_load_roundtrip "/w/.pi/convos.json" [] "conv-1"
           (Str "https://convos.org/i/x") Null).
  discriminate.
Defined.

End StoreClaims.

Module BridgeFacts.
Import Json Store Bridge JsonFacts.
Local Open Scope string_scope.

Lemma lac_app (a b : string) :
  list_ascii_of_string (a ++ b) = (list_ascii_of_string a ++ list_ascii_of_string b)%list.
Proof. induction a as [|c a IH]; simpl; [reflexivity|now rewrite IH]. Qed.

Lemma lowercase_app (a b : string) : lowercase (a ++ b) = lowercase a ++ lowercase b.
Proof. induction a as [|c a IH]; simpl; [reflexivity|now rewrite IH]. Qed.

(** Characters of the lower-cased path, last first. *)
Definition rev_lower (s : string) : list ascii := rev (list_ascii_of_string (lowercase s)).

Lemma rev_lower_app (a b : string) : rev_lower (a ++ b) = (rev_lower b ++ rev_lower a)%list.
Proof. unfold rev_lower. rewrite lowercase_app, lac_app, rev_app_distr. reflexivity. Qed.

Lemma prefix_list_head (a : ascii) (p l : list ascii) :
  prefix_list (a :: p) l = true -> exists rest, l = a :: rest.
Proof.
  destruct l as [|b rest]; simpl; [discriminate|].
  intros H. apply andb_prop in H as [H _]. apply Ascii.eqb_eq in H. subst b.
  exists rest. reflexivity.
Qed.

Lemma is_image_last_char (fn : string) :
  is_image fn = true ->
  exists c rest, rev_lower fn = c :: rest /\
    (c = "g"%char \/ c = "f"%char \/ c = "p"%char).
Proof.
  unfold is_image. intros H. apply existsb_exists in H as [e [He Hp]].
  unfold ends_with in Hp. fold (rev_lower fn) in Hp.
  simpl in He.
  destruct He as [<-|[<-|[<-|[<-|[<-|[<-|[]]]]]]];
    cbn [rev list_ascii_of_string app] in Hp;
    apply prefix_list_head in Hp as [rest Hr];
    eexists; exists rest; split; (exact Hr || auto).
Qed.

Lemma config_path_last_char (cfg : config) (cp : string) :
  getConvosConfigPath cfg = Some cp -> exists rest, rev_lower cp = "n"%char :: rest.
Proof.
  unfold getConvosConfigPath, path_join.
  destruct (convosEnvFile cfg) as [e|].
  - intros H. injection H as <-. rewrite !rev_lower_app. eexists. reflexivity.
  - destruct (worktreeRoot cfg) as [w|]; [|discriminate].
    destruct (String.eqb w ""); [discriminate|].
    intros H. injection H as <-. rewrite !rev_lower_app. eexists. reflexivity.
Qed.

(** The attachment's temporary file is never the session state file. *)
Lemma config_path_not_attachment (cfg : config) (cp tmp id fn : string) :
  getConvosConfigPath cfg = Some cp -> is_image fn = true ->
  cp <> path_join tmp ("convos-attachment-" ++ id ++ "-" ++ fn).
Proof.
  intros Hcp Himg Heq.
  destruct (config_path_last_char cfg cp Hcp) as [rest Hr].
  destruct (is_image_last_char fn Himg) as (c & rest' & Hf & Hc).
  apply (f_equal rev_lower) in Heq.
  unfold path_join in Heq. rewrite !rev_lower_app, Hf, Hr in Heq.
  simpl in Heq. injection Heq as Heq _. subst c.
  destruct Hc as [H|[H|H]]; discriminate H.
Qed.

Lemma fs_lookup_filter_other (q p : string) (m : fs) :
  q <> p -> fs_lookup q (filter (fun e => negb (String.eqb (fst e) p)) m) = fs_lookup q m.
Proof.
  intros Hqp. induction m as [|[k f] m IH]; simpl; [reflexivity|].
  destruct (String.eqb_spec k p) as [->|Hk]; simpl.
  - apply String.eqb_neq in Hqp. rewrite Hqp. exact IH.
  - rewrite IH. reflexivity.
Qed.

Lemma fs_lookup_write_other (q p c : string) (m : fs) :
  q <> p -> fs_lookup q (writeFileSync p c m) = fs_lookup q m.
Proof.
  intros Hqp. unfold writeFileSync. simpl.
  pose proof Hqp as Hb. apply String.eqb_neq in Hb. rewrite Hb.
  apply fs_lookup_filter_other. exact Hqp.
Qed.

Lemma fs_lookup_unlink_write (q p c : string) (m : fs) :
  q <> p -> fs_lookup q (unlinkSync p (writeFileSync p c m)) = fs_lookup q m.
Proof.
  intros Hqp. unfold unlinkSync.
  rewrite fs_lookup_filter_other by exact Hqp.
  apply fs_lookup_write_other. exact Hqp.
Qed.

End BridgeFacts.

Module BridgeClaims.
Import Json Store Bridge BridgeFacts.
Local Open Scope string_scope.

(** The configuration of a headless run ([CONVOS_ENV_FILE] set). *)
Definition cfg_env : config := mkConfig (Some "/home/agent/.convos/.env") None.

(** A ready, headless bridge joined to a conversation, with watermark [ls]. *)
Definition bridge0 (ls : jsval) : bridge :=
  mkBridge true false true (Str "conv-1") Undefined ls None [] [].

Definition missed_header : string :=
  "[Missed Convos messages while you were offline]:".

Definition missed_footer : string :=
  "Review these messages. If any need a response, reply via convos_send. Then continue with your work.".

(** C1 (code defect): the worked example holds (summary holds the peer
    messages at 100 and 300, watermark 300), but a fetch whose messages are
    all self-authored leaves the watermark at its old value 100 although a
    message sent at 300 was fetched, so it is fetched again next time. *)
Theorem catchup_self_only_fetch_keeps_watermark :
  let ex := catchUpOnMissedMessages cfg_env
              (Some [mkFetched "peer" (CObj (Str "hi")) (Str "100");
                     mkFetched "me" (CObj (Str "mine")) (Str "200");
                     mkFetched "peer" (CObj (Str "yo")) (Str "300")])
              (Some "me") (bridge0 (Str "50")) in
  let self_only := catchUpOnMissedMessages cfg_env
              (Some [mkFetched "me" (CObj (Str "mine")) (Str "300")])
              (Some "me") (bridge0 (Str "100")) in
  lastSeenTimestampNs ex = Str "300" /\
  published ex = [SendUserMessage (missed_header ++ nl ++ "[peer]: hi" ++ nl ++ "[peer]: yo"
                                   ++ nl ++ nl ++ missed_footer) None true] /\
  lastSeenTimestampNs self_only = Str "100" /\
  published self_only = [].
Proof. vm_compute. repeat split. Qed.

(** C2 (counterexample): a [message] event sent at 100 arriving while the
    watermark is 200 lowers the watermark to 100. *)
Lemma message_event_lowers_watermark :
  let b := handle_message cfg_env None (mkMsg "m1" "peer" (Str "hi") (Str "100"))
             (bridge0 (Str "200")) in
  lastSeenTimestampNs b = Str "100" /\
  dec_value "100" 0 = Some 100 /\ dec_value "200" 0 = Some 200 /\ 100 < 200.
Proof. vm_compute. repeat split. Qed.

(** C2 (amended): a [message] event with a truthy [sentAtNs] sets the
    watermark to that value with no comparison (otherwise it is unchanged);
    a reconciliation run either leaves the watermark unchanged or sets it
    to the [sentAtNs] of the last fetched message, again with no comparison.
    The watermark is non-decreasing exactly when these values arrive in
    non-decreasing order. *)
Theorem watermark_assignments :
  (forall cfg dl e b,
     lastSeenTimestampNs (handle_message cfg dl e b) =
     if truthy (m_sentAtNs e) then m_sentAtNs e else lastSeenTimestampNs b) /\
  (forall cfg fetch own b,
     let b' := catchUpOnMissedMessages cfg fetch own b in
     lastSeenTimestampNs b' = lastSeenTimestampNs b \/
     exists m0 ms, fetch = Some (m0 :: ms) /\
       truthy (f_sentAtNs (last (m0 :: ms) m0)) = true /\
       lastSeenTimestampNs b' = f_sentAtNs (last (m0 :: ms) m0)).
Proof.
  split.
  - intros cfg dl e b. unfold handle_message.
    destruct (truthy (m_sentAtNs e));
      destruct (match m_content e with Str c => match_attachment c | _ => None end)
        as [fn|]; try reflexivity;
      destruct (_ && is_image fn); try reflexivity;
      destruct dl as [bytes|]; try reflexivity;
      destruct (readFileSync _ _); reflexivity.
  - intros cfg fetch own b. cbv zeta. unfold catchUpOnMissedMessages.
    destruct (negb (truthy (conversationId b))); [left; reflexivity|].
    destruct (convosEnvFile cfg); [|left; reflexivity].
    destruct (negb (truthy (lastSeenTimestampNs b))); [left; reflexivity|].
    destruct fetch as [[|m0 ms]|]; try (left; reflexivity).
    destruct (filter _ _); [left; reflexivity|].
    destruct (truthy (f_sentAtNs (last (m0 :: ms) m0))) eqn:Ht.
    + right. exists m0, ms. split; [reflexivity|split; [exact Ht|reflexivity]].
    + left. reflexivity.
Qed.

(** C5 (code defect): the line [null] is well-formed JSON without an
    event discriminant, yet reading [event.event] on it throws; the
    listener's exception ends line processing, so the recognised [sent]
    event after it is never dispatched. *)
Theorem null_line_throws_and_drops_later_events :
  classify_line "null" = Threw /\
  process_lines [event_line "ready"; "null"; event_line "sent"] = ([KReady], true).
Proof. vm_compute. split; reflexivity. Qed.

(** C8 (counterexample): in headless mode a ready bridge whose last
    trigger was local gets no directive at all. *)
Lemma headless_local_trigger_no_directive :
  before_agent_start (mkBridge true false true (Str "conv-1") Undefined Undefined None [] [])
    "SYS" = None.
Proof. reflexivity. Qed.

(** C8 (amended): before a turn, nothing is appended unless the bridge is
    ready; when ready, a true flag appends the convos_send / plain-text
    directive; a false flag appends the terminal directive in interactive
    mode and nothing in headless mode. *)
Theorem before_agent_start_directive (b : bridge) (sp : string) :
  before_agent_start b sp =
  if isReady b then
    if lastMessageFromConvos b then Some (sp ++ convos_directive)
    else if headlessMode b then None else Some (sp ++ terminal_directive)
  else None.
Proof.
  unfold before_agent_start.
  destruct (isReady b), (headlessMode b), (lastMessageFromConvos b); reflexivity.
Qed.

(** C10: a [message] event without a truthy [sentAtNs] leaves the
    watermark and the session state file unchanged, and still publishes
    one turn-triggering message. *)
Theorem message_without_sentAtNs_frame (cfg : config) (dl : option string)
    (e : msg_event) (b : bridge) :
  truthy (m_sentAtNs e) = false ->
  let b' := handle_message cfg dl e b in
  lastSeenTimestampNs b' = lastSeenTimestampNs b /\
  (forall cp, getConvosConfigPath cfg = Some cp ->
     fs_lookup cp (files b') = fs_lookup cp (files b)) /\
  exists p, published b' = (published b ++ [p])%list /\ triggers_turn p = true.
Proof.
  intros Ht. unfold handle_message. rewrite Ht. cbv beta iota zeta.
  destruct (match m_content e with Str c => match_attachment c | _ => None end)
    as [fn|].
  2:{ split; [reflexivity|split; [reflexivity|eexists; split; reflexivity]]. }
  destruct (truthy (conversationId (set_flag true b)) && is_image fn) eqn:Hc.
  2:{ split; [reflexivity|split; [reflexivity|eexists; split; reflexivity]]. }
  apply andb_prop in Hc as [_ Himg].
  destruct dl as [bytes|].
  2:{ split; [reflexivity|split; [reflexivity|eexists; split; reflexivity]]. }
  destruct (readFileSync _ _).
  - split; [reflexivity|split; [|eexists; split; reflexivity]].
    intros cp Hcp. cbn [files set_files set_flag emit].
    apply fs_lookup_unlink_write.
    exact (config_path_not_attachment cfg cp _ _ fn Hcp Himg).
  - split; [reflexivity|split; [|eexists; split; reflexivity]].
    intros cp Hcp. cbn [files set_files set_flag emit].
    apply fs_lookup_write_other.
    exact (config_path_not_attachment cfg cp _ _ fn Hcp Himg).
Qed.

Lemma message_without_sentAtNs_frame_witness :
  truthy Undefined = false /\
  (let cfg := mkConfig None (Some "/w") in
   let e := mkMsg "m7" "peer"
              (Str "[remote attachment: cat.png (12 KB) https://x.example/a]") Undefined in
   let b := mkBridge true false false (Str "conv-1") Undefined (Str "100") None
              [("/w/.pi/convos.json", FText "{}")] [] in
   let b' := handle_message cfg (Some "PNGDATA") e b in
   lastSeenTimestampNs b' = lastSeenTimestampNs b /\
   (forall cp, getConvosConfigPath cfg = Some cp ->
      fs_lookup cp (files b') = fs_lookup cp (files b)) /\
   exists p, published b' = (published b ++ [p])%list /\ triggers_turn p = true).
Proof.
  split; [reflexivity|].
  exact (message_without_sentAtNs_frame (mkConfig None (Some "/w")) (Some "PNGDATA")
           (mkMsg "m7" "peer"
              (Str "[remote attachment: cat.png (12 KB) https://x.example/a]") Undefined)
           (mkBridge true false false (Str "conv-1") Undefined (Str "100") None
              [("/w/.pi/convos.json", FText "{}")] [])
           eq_refl).
Defined.

End BridgeClaims.

Module SupervisorExtras.
Import Supervisor.

Lemma fold_kill_shape (xs : list Z) (s : sup) :
  exists k, (k <= length xs)%nat /\
  fold_left (fun s' _ => kill s') xs s =
  {| agentProcess := agentProcess s; stdinWriter := stdinWriter s;
     isReady := isReady s; rl_open := rl_open s;
     stdin_writable := stdin_writable s; child_exited := child_exited s;
     stderrLines := stderrLines s; timers := timers s; now := now s;
     stdin_log := stdin_log s; signals := (signals s + k)%nat;
     notices := notices s |}.
Proof.
  revert s. induction xs as [|x xs IH]; intros s; simpl.
  - exists O. split; [lia|]. rewrite Nat.add_0_r. destruct s; reflexivity.
  - destruct (IH (kill s)) as (k & Hk & ->).
    unfold kill. destruct (child_exited s) eqn:E; simpl.
    + exists k. split; [lia|]. rewrite E. reflexivity.
    + exists (S k). split; [lia|]. rewrite ?E. f_equal; lia.
Qed.

Lemma filter_partition_length {A} (f : A -> bool) (l : list A) :
  (length (filter f l) + length (filter (fun x => negb (f x)) l))%nat = length l.
Proof.
  induction l as [|x l IH]; simpl; [reflexivity|].
  destruct (f x); simpl; lia.
Qed.

Lemma advance_shape (dt : Z) (s : sup) :
  exists k,
    (k + length (filter (fun d => negb (Z.leb d (now s + dt))) (timers s)) <= length (timers s))%nat /\
    advance dt s =
    {| agentProcess := agentProcess s; stdinWriter := stdinWriter s;
       isReady := isReady s; rl_open := rl_open s;
       stdin_writable := stdin_writable s; child_exited := child_exited s;
       stderrLines := stderrLines s;
       timers := filter (fun d => negb (Z.leb d (now s + dt))) (timers s);
       now := now s + dt; stdin_log := stdin_log s;
       signals := (signals s + k)%nat; notices := notices s |}.
Proof.
  unfold advance.
  match goal with |- context [fold_left _ ?l ?s0] =>
    destruct (fold_kill_shape l s0) as (k & Hk & ->) end.
  exists k. split; [|reflexivity].
  pose proof (filter_partition_length (fun d => Z.leb d (now s + dt)) (timers s)). lia.
Qed.

(** Reachable states: a cleared [agentProcess] comes with a cleared
    writer, ready flag and line reader, and an exited child has been
    cleared. *)
Definition down_ok (s : sup) : Prop :=
  (agentProcess s = false -> stdinWriter s = false /\ isReady s = false /\ rl_open s = false)
  /\ (child_exited s = true -> agentProcess s = false).

Lemma down_ok_start : down_ok start.
Proof. split; intros H; discriminate. Qed.

Lemma down_ok_step (s : sup) (e : ev) : down_ok s -> down_ok (step s e).
Proof.
  unfold down_ok in *. intros [H1 H2]. destruct e as [| l | | c | dt]; simpl.
  - unfold on_ready. destruct (rl_open s) eqn:R; [|rewrite R; split; assumption].
    split; simpl.
    + intros Ha. destruct (H1 Ha) as (_ & _ & R'). congruence.
    + exact H2.
  - split; simpl; assumption.
  - unfold stopAgent. destruct (agentProcess s) eqn:A.
    + split; simpl; [intros _; repeat split|intros _; reflexivity].
    + rewrite A; split; [exact H1|exact H2].
  - destruct (child_exited s) eqn:X; [rewrite X; split; assumption|].
    split; simpl; intros _; [repeat split|reflexivity].
  - destruct (advance_shape dt s) as (k & _ & ->). split; simpl; assumption.
Qed.

Lemma down_ok_run (evs : list ev) (s : sup) : down_ok s -> down_ok (run evs s).
Proof.
  unfold run. revert s. induction evs as [|e evs IH]; intros s H; simpl; [exact H|].
  apply IH, down_ok_step, H.
Qed.

(** Once cleared, a reachable state stays cleared and writes nothing. *)
Lemma step_down (s : sup) (e : ev) :
  down_ok s -> agentProcess s = false ->
  agentProcess (step s e) = false /\ stdin_log (step s e) = stdin_log s.
Proof.
  unfold down_ok. intros [H1 H2] Ha. destruct (H1 Ha) as (Hw & Hr & Hl).
  destruct e as [| l | | c | dt]; simpl.
  - unfold on_ready. rewrite Hl. split; [exact Ha|reflexivity].
  - split; [exact Ha|reflexivity].
  - unfold stopAgent. rewrite Ha. split; [exact Ha|reflexivity].
  - destruct (child_exited s); [split; [exact Ha|reflexivity]|].
    split; reflexivity.
  - destruct (advance_shape dt s) as (k & _ & ->). split; [exact Ha|reflexivity].
Qed.

Lemma run_down (evs : list ev) (s : sup) :
  down_ok s -> agentProcess s = false ->
  agentProcess (run evs s) = false /\ stdin_log (run evs s) = stdin_log s.
Proof.
  unfold run. revert s. induction evs as [|e evs IH]; intros s Hok Ha; simpl;
    [split; [exact Ha|reflexivity]|].
  destruct (step_down s e Hok Ha) as [Ha' Hl].
  destruct (IH (step s e) (down_ok_step s e Hok) Ha') as [Ha'' Hl''].
  split; [exact Ha''|]. rewrite Hl''. exact Hl.
Qed.

(** Kill budget: a live process has no pending timer and no signal; at
    most one timer or signal exists in total. *)
Definition kill_budget (s : sup) : Prop :=
  (agentProcess s = true -> timers s = [] /\ signals s = O) /\
  (length (timers s) + signals s <= 1)%nat.

Lemma kill_budget_step (s : sup) (e : ev) : kill_budget s -> kill_budget (step s e).
Proof.
  unfold kill_budget in *. intros [H1 H2]. destruct e as [| l | | c | dt]; simpl.
  - unfold on_ready. destruct (rl_open s); [split; simpl; assumption|cbn; split; assumption].
  - split; simpl; assumption.
  - unfold stopAgent. destruct (agentProcess s) eqn:A.
    + destruct (H1 eq_refl) as [Ht Hs].
      unfold write_cmd. split; [intros Hf; discriminate|].
      destruct (stdinWriter s && stdin_writable s); simpl; rewrite Ht, Hs; simpl; lia.
    + rewrite A; split; assumption.
  - destruct (child_exited s); [cbn; split; assumption|].
    split; simpl; [intros Hf; discriminate|exact H2].
  - destruct (advance_shape dt s) as (k & Hk & ->). simpl. split.
    + intros Ha. destruct (H1 Ha) as [Ht Hs]. rewrite Ht in Hk |- *. simpl in *.
      split; [reflexivity|lia].
    + lia.
Qed.

(** Exit reports: none before the child has exited, at most one. *)
Definition report_budget (s : sup) : Prop :=
  (child_exited s = false -> notices s = []) /\ (length (notices s) <= 1)%nat.

Lemma report_budget_step (s : sup) (e : ev) : report_budget s -> report_budget (step s e).
Proof.
  unfold report_budget in *. intros [H1 H2]. destruct e as [| l | | c | dt]; simpl.
  - unfold on_ready. destruct (rl_open s); [split; simpl; assumption|cbn; split; assumption].
  - split; simpl; assumption.
  - unfold stopAgent. destruct (agentProcess s); [|cbn; split; assumption].
    unfold write_cmd. destruct (stdinWriter s && stdin_writable s); split; simpl; assumption.
  - destruct (child_exited s) eqn:X; [rewrite X; split; assumption|].
    unfold on_exit; cbn. rewrite (H1 eq_refl). split; [intros Hf; discriminate|].
    destruct (negb (isReady s) && negb (code_is_zero c)); [simpl; lia|].
    destruct (isReady s); simpl; lia.
  - destruct (advance_shape dt s) as (k & _ & ->). split; simpl; assumption.
Qed.

Lemma run_invariant (P : sup -> Prop) (evs : list ev) (s : sup) :
  (forall s e, P s -> P (step s e)) -> P s -> P (run evs s).
Proof.
  intros Hs. unfold run. revert s. induction evs as [|e evs IH]; intros s H; simpl;
    [exact H|].
  apply IH, Hs, H.
Qed.

End SupervisorExtras.

Module SupervisorExtraClaims.
Import Supervisor SupervisorExtras Extension.

(** From [startAgent] on, whatever happens (ready, stderr lines, stop
    calls, the exit event, time passing), the child receives at most one
    SIGTERM: [stopAgent] arms its grace timer only while a process is
    live and clears it, and nothing makes it live again. *)
Theorem at_most_one_sigterm (evs : list ev) : (signals (run evs start) <= 1)%nat.
Proof.
  assert (H : kill_budget (run evs start)).
  { apply run_invariant; [apply kill_budget_step|].
    split; [intros _; split; reflexivity|simpl; lia]. }
  destruct H as [_ H]. lia.
Qed.

(** From [startAgent] on, the exit handler publishes nothing while the
    child has not exited, and at most one notice in total. *)
Theorem at_most_one_exit_notice (evs : list ev) :
  (child_exited (run evs start) = false -> notices (run evs start) = []) /\
  (length (notices (run evs start)) <= 1)%nat.
Proof.
  apply run_invariant; [apply report_budget_step|].
  split; [reflexivity|simpl; lia].
Qed.

(** After [stopAgent()] or the child's exit, whatever follows: the
    extension never becomes ready again, writes nothing more to the
    child's stdin, and [convos_send] and [convos_react] refuse with an
    error, changing nothing. *)
Theorem stopped_agent_stays_down (evs1 evs2 : list ev) (e : ev) :
  (e = EvStop \/ exists c, e = EvExit c) ->
  let s2 := run (evs1 ++ e :: evs2) start in
  agentProcess s2 = false /\ isReady s2 = false /\ stdinWriter s2 = false /\
  stdin_log s2 = stdin_log (run (evs1 ++ [e]) start) /\
  (forall cfg now_ns text replyTo b,
     let res := convos_send cfg now_ns text replyTo s2 b in
     isError (fst (fst res)) = true /\ snd (fst res) = s2 /\ snd res = b) /\
  (forall messageId emoji action,
     convos_react messageId emoji action s2 = (mkResult "Convos agent is not running." true, s2)).
Proof.
  intros He s2.
  set (s1 := run evs1 start).
  assert (Hok1 : down_ok s1) by (apply down_ok_run, down_ok_start).
  assert (Hrun : forall l, run (evs1 ++ l) start = run l s1)
    by (intros l; unfold run, s1; rewrite fold_left_app; reflexivity).
  assert (Ha : agentProcess (step s1 e) = false).
  { destruct He as [->|[c ->]]; simpl.
    - unfold stopAgent. destruct (agentProcess s1) eqn:A; [reflexivity|exact A].
    - destruct (child_exited s1) eqn:X; [apply (proj2 Hok1), X|reflexivity]. }
  assert (Hok2 : down_ok (step s1 e)) by (apply down_ok_step, Hok1).
  unfold s2. rewrite !Hrun.
  change (run (e :: evs2) s1) with (run evs2 (step s1 e)).
  change (run [e] s1) with (step s1 e).
  destruct (run_down evs2 (step s1 e) Hok2 Ha) as [Ha2 Hl2].
  pose proof (down_ok_run evs2 (step s1 e) Hok2) as [Hd _].
  destruct (Hd Ha2) as (Hw & Hr & _).
  assert (Hdown : agent_down (run evs2 (step s1 e)) = true)
    by (unfold agent_down; rewrite Hw; reflexivity).
  split; [exact Ha2|]. split; [exact Hr|]. split; [exact Hw|]. split; [exact Hl2|].
  split.
  - intros cfg now_ns text replyTo b. unfold convos_send. rewrite Hdown.
    split; [reflexivity|split; reflexivity].
  - intros messageId emoji action. unfold convos_react. rewrite Hdown. reflexivity.
Qed.

Lemma stopped_agent_stays_down_witness :
  (EvStop = EvStop \/ exists c, EvStop = EvExit c) /\
  (let s2 := run ([EvReady] ++ EvStop :: [EvReady; EvAdvance 3000]) start in
   agentProcess s2 = false /\ isReady s2 = false /\ stdinWriter s2 = false /\
   stdin_log s2 = stdin_log (run ([EvReady] ++ [EvStop]) start) /\
   (forall cfg now_ns text replyTo b,
      let res := convos_send cfg now_ns text replyTo s2 b in
      isError (fst (fst res)) = true /\ snd (fst res) = s2 /\ snd res = b) /\
   (forall messageId emoji action,
      convos_react messageId emoji action s2
        = (mkResult "Convos agent is not running." true, s2))).
Proof.
  split; [left; reflexivity|].
  apply (stopped_agent_stays_down [EvReady] [EvReady; EvAdvance 3000] EvStop).
  left; reflexivity.
Defined.

End SupervisorExtraClaims.

Module ExtensionFacts.
Import Json Store Bridge Extension JsonFacts BridgeFacts StoreClaims.
Local Open Scope string_scope.

(** *** [JSON.stringify] without indentation, read back *)

Definition fmt_c (kv : string * jvalue) : string :=
  quote (fst kv) ++ ":" ++ stringify_compact (snd kv).

Lemma parse_cmember_last (k : string) (v : jvalue) (f : nat) (r : string) :
  scalar v = true ->
  parse_members (S (S f)) (fmt_c (k, v) ++ "}" ++ r) = Some ([(k, v)], r).
Proof.
  intros Hv. unfold fmt_c, quote; simpl fst; simpl snd.
  rewrite !app_assoc_str. simpl.
  rewrite app_assoc_str. simpl. rewrite escape_parse.
  destruct v; simpl in Hv; try discriminate; [reflexivity|].
  simpl. unfold quote. rewrite app_assoc_str. simpl. rewrite escape_parse. reflexivity.
Qed.

Lemma parse_cmember_more (k : string) (v : jvalue) (f : nat) (T : string) :
  scalar v = true ->
  parse_members (S (S f)) (fmt_c (k, v) ++ "," ++ T) =
  match parse_members (S f) T with
  | Some (ms, r5) => Some ((k, v) :: ms, r5)
  | None => None
  end.
Proof.
  intros Hv. unfold fmt_c, quote; simpl fst; simpl snd.
  rewrite !app_assoc_str. simpl.
  rewrite app_assoc_str. simpl. rewrite escape_parse.
  destruct v; simpl in Hv; try discriminate; [reflexivity|].
  simpl. unfold quote. rewrite app_assoc_str. simpl. rewrite escape_parse. reflexivity.
Qed.

Lemma parse_cmembers (ms : list (string * jvalue)) (f : nat) (r : string) :
  ms <> [] -> forallb (fun kv => scalar (snd kv)) ms = true -> (length ms < f)%nat ->
  parse_members f (join "," (map fmt_c ms) ++ "}" ++ r) = Some (ms, r).
Proof.
  revert f. induction ms as [|[k v] rest IH]; intros f Hne Hall Hf; [congruence|].
  simpl in Hall. apply andb_prop in Hall as [Hv Hall].
  destruct f as [|f]; [simpl in Hf; lia|].
  destruct rest as [|y rest'].
  - destruct f as [|f]; [simpl in Hf; lia|].
    apply parse_cmember_last. exact Hv.
  - change (join "," (map fmt_c ((k, v) :: y :: rest')))
      with (fmt_c (k, v) ++ "," ++ join "," (map fmt_c (y :: rest'))).
    rewrite !app_assoc_str.
    destruct f as [|f]; [simpl in Hf; lia|].
    rewrite parse_cmember_more by exact Hv.
    rewrite IH; [reflexivity|discriminate|exact Hall|simpl in *; lia].
Qed.

Lemma join_c_length (ms : list (string * jvalue)) :
  (length ms <= String.length (join "," (map fmt_c ms)))%nat.
Proof.
  induction ms as [|x rest IH]; [simpl; lia|].
  destruct rest as [|y rest'].
  - simpl. unfold fmt_c, quote. simpl. lia.
  - change (join "," (map fmt_c (x :: y :: rest')))
      with (fmt_c x ++ "," ++ join "," (map fmt_c (y :: rest'))).
    assert (Hx : (1 <= String.length (fmt_c x))%nat)
      by (unfold fmt_c, quote; simpl; lia).
    rewrite !length_app_str. simpl String.length at 2.
    simpl length in *. lia.
Qed.

(** [JSON.parse] of [JSON.stringify(o)], followed by white space, gives
    back a flat object whose members hold strings or null. *)
Lemma json_parse_compact_flat (ms : list (string * jvalue)) (T : string) :
  ms <> [] -> forallb (fun kv => scalar (snd kv)) ms = true -> skip_ws T = EmptyString ->
  json_parse (stringify_compact (JObj ms) ++ T) = Some (JObj ms).
Proof.
  intros Hne Hall HT.
  destruct ms as [|x rest]; [congruence|].
  change (stringify_compact (JObj (x :: rest)))
    with ("{" ++ join "," (map fmt_c (x :: rest)) ++ "}").
  assert (HJ : exists J', join "," (map fmt_c (x :: rest)) = String dquote J').
  { destruct rest; simpl; unfold fmt_c, quote; simpl; eexists; reflexivity. }
  destruct HJ as [J' HJ'].
  pose proof (join_c_length (x :: rest)) as Hlen.
  remember (join "," (map fmt_c (x :: rest))) as J eqn:HJdef.
  unfold json_parse.
  rewrite !app_assoc_str.
  set (N := String.length _).
  assert (HN : (length (x :: rest) < N)%nat).
  { unfold N. rewrite !length_app_str. cbn [String.length]. lia. }
  clearbody N.
  assert (Hm : parse_members N (J ++ "}" ++ T) = Some (x :: rest, T)).
  { rewrite HJdef. apply parse_cmembers; [discriminate|exact Hall|exact HN]. }
  subst J. rewrite HJ' in Hm |- *. simpl in Hm |- *. rewrite Hm, HT. reflexivity.
Qed.

Lemma opt_member_str_scalar (k : string) (v : option string) :
  forallb (fun kv => scalar (snd kv)) (opt_member_str k v) = true.
Proof. destruct v as [x|]; simpl; [destruct (String.eqb x "")|]; reflexivity. Qed.

Lemma send_cmd_parse (text : string) (replyTo : option string) (T : string) :
  skip_ws T = EmptyString ->
  json_parse (stringify_compact (send_cmd text replyTo) ++ T) = Some (send_cmd text replyTo).
Proof.
  intros HT. apply json_parse_compact_flat; [discriminate| |exact HT].
  simpl. apply opt_member_str_scalar.
Qed.

Lemma react_cmd_parse (messageId emoji : string) (action : option string) (T : string) :
  skip_ws T = EmptyString ->
  json_parse (stringify_compact (react_cmd messageId emoji action) ++ T)
    = Some (react_cmd messageId emoji action).
Proof.
  intros HT. apply json_parse_compact_flat; [discriminate| |exact HT].
  simpl. apply opt_member_str_scalar.
Qed.


(** *** The state file *)

Lemma persist_load (p cid : string) (inv ls : jsval) (m : fs) :
  cid <> "" ->
  loadPersistedState (Some p) (persistState (Some p) (Str cid) inv ls m)
    = Some (state_object cid inv ls).
Proof.
  intros Hcid. unfold persistState, truthy.
  apply String.eqb_neq in Hcid. rewrite Hcid. cbn [negb].
  unfold loadPersistedState, existsSync, readFileSync.
  rewrite fs_lookup_write.
  destruct (state_object_flat cid inv ls) as (ms & Hms & Hne & Hall).
  rewrite Hms. apply json_parse_stringify_flat; assumption.
Qed.

Lemma state_object_fields (cid : string) (inv ls : jsval) :
  get_field (Some (state_object cid inv ls)) "conversationId" = Some (JStr cid) /\
  get_field (Some (state_object cid inv ls)) "lastSeenTimestampNs" = jsval_json ls.
Proof. destruct inv, ls; split; reflexivity. Qed.

Lemma persist_other (cfg : config) (b : bridge) (q : string) :
  getConvosConfigPath cfg <> Some q ->
  fs_lookup q (files (persist cfg b)) = fs_lookup q (files b).
Proof.
  intros Hq. unfold persist, persistState. simpl.
  destruct (negb (truthy (conversationId b))); [reflexivity|].
  destruct (getConvosConfigPath cfg) as [p|]; [|reflexivity].
  destruct (conversationId b); try reflexivity.
  apply fs_lookup_write_other. intros ->. apply Hq. reflexivity.
Qed.

Lemma existsSync_persist (q : string) (path : option string) (cid inv ls : jsval) (m : fs) :
  existsSync q m = true -> existsSync q (persistState path cid inv ls m) = true.
Proof.
  unfold persistState. intros H.
  destruct (negb (truthy cid)); [exact H|].
  destruct path as [p|]; [|exact H]. destruct cid; try exact H.
  unfold existsSync in *. destruct (String.eqb_spec q p) as [->|Hne].
  - rewrite fs_lookup_write. reflexivity.
  - rewrite fs_lookup_write_other by exact Hne. exact H.
Qed.

Lemma persisted_conversation (cfg : config) (p cid : string) (inv ls : jsval) (m : fs) :
  getConvosConfigPath cfg = Some p -> cid <> "" ->
  loadPersistedConversation cfg (persistState (getConvosConfigPath cfg) (Str cid) inv ls m)
    = Some (JStr cid).
Proof.
  intros Hp Hcid. unfold loadPersistedConversation. rewrite Hp, persist_load by exact Hcid.
  rewrite (proj1 (state_object_fields cid inv ls)). reflexivity.
Qed.

Lemma headless_config_path (cfg : config) (env : string) :
  convosEnvFile cfg = Some env ->
  getConvosConfigPath cfg = Some (path_join (dirname env) "convos-session.json").
Proof. intros H. unfold getConvosConfigPath. rewrite H. reflexivity. Qed.

(** A headless start after the state of [cid] with watermark [ls] was
    saved. *)
Lemma session_start_after_persist (cfg : config) (env cid ls : string) (inv : jsval)
    (m : fs) (init_ok : bool) (convosName : option string) (prof : string)
    (branch : option string) :
  convosEnvFile cfg = Some env -> cid <> "" -> ls <> "" ->
  (init_ok = true \/ existsSync env m = true) ->
  session_start false true init_ok cfg convosName prof branch
    (persistState (getConvosConfigPath cfg) (Str cid) inv (Str ls) m)
  = (AutoStarted [JStr "--env-file"; JStr env; JStr cid], Some (JStr ls)).
Proof.
  intros He Hcid Hls Hinit.
  pose proof (headless_config_path cfg env He) as Hp.
  unfold session_start. cbn [negb]. rewrite He.
  assert (Hi : negb (existsSync env (persistState (getConvosConfigPath cfg) (Str cid) inv
                                      (Str ls) m)) && negb init_ok = false).
  { destruct Hinit as [->|Hx]; [apply andb_false_r|].
    rewrite (existsSync_persist _ _ _ _ _ _ Hx). reflexivity. }
  rewrite Hi. rewrite Hp, persist_load by exact Hcid.
  destruct (state_object_fields cid inv (Str ls)) as [H1 H2]. rewrite H1, H2.
  simpl jsval_json. unfold otruthy, jtruthy.
  apply String.eqb_neq in Hcid, Hls. rewrite Hcid, Hls. reflexivity.
Qed.

(** *** [/convos-start] argument splitting *)

Definition no_quote (w : string) : bool :=
  forallb (fun c => negb (Ascii.eqb c dquote)) (list_ascii_of_string w).

Definition is_plain (w : string) : bool :=
  negb (String.eqb w "") &&
  forallb (fun c => negb (is_space c) && negb (Ascii.eqb c dquote)) (list_ascii_of_string w).






Lemma plain_no_quote (w : string) : is_plain w = true -> no_quote w = true.
Proof.
  unfold is_plain, no_quote. intros H. apply andb_prop in H as [_ H].
  induction (list_ascii_of_string w) as [|c l IH]; [reflexivity|].
  simpl in H |- *. apply andb_prop in H as [Hc H]. apply andb_prop in Hc as [_ Hc].
  rewrite Hc, IH by exact H. reflexivity.
Qed.






(** *** Character counts *)

Fixpoint count_char (c : ascii) (s : string) : nat :=
  match s with
  | EmptyString => O
  | String d r => ((if Ascii.eqb d c then 1 else 0) + count_char c r)%nat
  end.

Lemma count_char_app (c : ascii) (a b : string) :
  count_char c (a ++ b) = (count_char c a + count_char c b)%nat.
Proof. induction a as [|d a IH]; simpl; [reflexivity|rewrite IH; lia]. Qed.

Lemma split_on_parts (c : ascii) (s p : string) :
  In p (split_on c s) ->
  count_char c p = O /\ forall d, (count_char d p <= count_char d s)%nat.
Proof.
  revert p. induction s as [|e r IH]; intros p Hin.
  - simpl in Hin. destruct Hin as [<-|[]]. split; [reflexivity|intros d; simpl; lia].
  - simpl in Hin. destruct (Ascii.eqb_spec e c) as [->|Hne].
    + destruct Hin as [<-|Hin].
      * split; [reflexivity|intros d; simpl; lia].
      * destruct (IH p Hin) as [H1 H2]. split; [exact H1|intros d; simpl; specialize (H2 d); lia].
    + destruct (split_on c r) as [|p0 ps] eqn:E.
      * destruct Hin as [<-|[]]. simpl. apply Ascii.eqb_neq in Hne. rewrite Hne.
        split; [reflexivity|intros d; lia].
      * destruct Hin as [<-|Hin].
        -- destruct (IH p0 (or_introl eq_refl)) as [H1 H2]. simpl.
           apply Ascii.eqb_neq in Hne. rewrite Hne, H1.
           split; [reflexivity|intros d; specialize (H2 d); lia].
        -- destruct (IH p (or_intror Hin)) as [H1 H2].
           split; [exact H1|intros d; simpl; specialize (H2 d); lia].
Qed.

Lemma last_in {A} (l : list A) (d : A) : last l d = d \/ In (last l d) l.
Proof.
  induction l as [|x l IH]; [left; reflexivity|].
  destruct l as [|y l']; [right; left; reflexivity|].
  destruct IH as [H|H]; [left; exact H|right; right; exact H].
Qed.

Lemma seps_to_spaces_count (d : ascii) (s : string) :
  d = "-"%char \/ d = "_"%char \/ d = "/"%char -> count_char d (seps_to_spaces s) = O.
Proof.
  intros Hd. induction s as [|c r IH]; [reflexivity|].
  simpl. rewrite IH.
  destruct (Ascii.eqb c "-" || Ascii.eqb c "_" || Ascii.eqb c "/")%char eqn:E.
  - destruct Hd as [ -> | [ -> | -> ] ]; reflexivity.
  - destruct (Ascii.eqb_spec c d) as [->|Hne]; [|reflexivity].
    destruct Hd as [ -> | [ -> | -> ] ]; discriminate.
Qed.

Lemma projectName_no_slash (wt : option string) : count_char "/" (projectName wt) = O.
Proof.
  destruct wt as [w|]; [|reflexivity]. unfold projectName.
  destruct (String.eqb w ""); [reflexivity|].
  destruct (last_in (split_on "/"%char w) "project") as [E|E].
  - rewrite E. reflexivity.
  - exact (proj1 (split_on_parts _ _ _ E)).
Qed.

Lemma branch_summary_shape (br : string) :
  (count_char " " (branch_summary br) <= 1)%nat /\ count_char "-" (branch_summary br) = O /\
  count_char "_" (branch_summary br) = O /\ count_char "/" (branch_summary br) = O.
Proof.
  unfold branch_summary.
  set (X := seps_to_spaces (strip_branch_prefix branch_prefixes br)).
  assert (Hp : forall p, In p (split_on " "%char X) ->
                 count_char " " p = O /\ count_char "-" p = O /\
                 count_char "_" p = O /\ count_char "/" p = O).
  { intros p Hin. destruct (split_on_parts _ _ _ Hin) as [H0 Hd].
    pose proof (Hd "-"%char) as H1. pose proof (Hd "_"%char) as H2.
    pose proof (Hd "/"%char) as H3. unfold X in H1, H2, H3.
    rewrite seps_to_spaces_count in H1, H2, H3 by tauto. lia. }
  destruct (split_on " "%char X) as [|a [|c rest]].
  - simpl. lia.
  - destruct (Hp a (or_introl eq_refl)) as (A1 & A2 & A3 & A4).
    simpl. lia.
  - destruct (Hp a (or_introl eq_refl)) as (A1 & A2 & A3 & A4).
    destruct (Hp c (or_intror (or_introl eq_refl))) as (C1 & C2 & C3 & C4).
    change (join " " (firstn 2 (a :: c :: rest))) with (a ++ " " ++ c).
    rewrite !count_char_app. simpl. lia.
Qed.

Lemma existsb_not_dash (l : list string) :
  existsb (fun a => negb (starts_with_dash a)) l = negb (forallb starts_with_dash l).
Proof.
  induction l as [|a l IH]; [reflexivity|]. simpl. rewrite IH.
  destruct (starts_with_dash a); reflexivity.
Qed.


Definition steers (p : publish) : bool :=
  match p with SendMessage _ _ s => s | SendUserMessage _ _ s => s end.

Lemma fs_lookup_unlink_same (p : string) (m : fs) : fs_lookup p (unlinkSync p m) = None.
Proof.
  unfold unlinkSync. induction m as [|[k f] m IH]; [reflexivity|].
  simpl. destruct (String.eqb k p) eqn:E; simpl; [exact IH|].
  rewrite String.eqb_sym, E. exact IH.
Qed.

Lemma unlink_write_cases (q p c : string) (m : fs) :
  fs_lookup q (unlinkSync p (writeFileSync p c m)) = fs_lookup q m \/
  fs_lookup q (unlinkSync p (writeFileSync p c m)) = None.
Proof.
  destruct (String.eqb_spec q p) as [->|Hne].
  - right. apply fs_lookup_unlink_same.
  - left. apply fs_lookup_unlink_write. exact Hne.
Qed.

(** What one [message] event does to the bridge, whatever its content
    and whatever the download gives. *)
Lemma handle_message_effect (cfg : config) (dl : option string) (e : msg_event) (b : bridge) :
  isReady (handle_message cfg dl e b) = isReady b /\
  headlessMode (handle_message cfg dl e b) = headlessMode b /\
  conversationId (handle_message cfg dl e b) = conversationId b /\
  inviteUrl (handle_message cfg dl e b) = inviteUrl b /\
  lastMessageFromConvos (handle_message cfg dl e b) = true /\
  (exists p, published (handle_message cfg dl e b) = (published b ++ [p])%list /\
             triggers_turn p = true /\ steers p = true) /\
  (forall q, getConvosConfigPath cfg <> Some q ->
     fs_lookup q (files (handle_message cfg dl e b)) = fs_lookup q (files b) \/
     fs_lookup q (files (handle_message cfg dl e b)) = None).
Proof.
  unfold handle_message. cbv zeta.
  set (b2 := if truthy (m_sentAtNs e)
             then persist cfg (set_lastSeen (m_sentAtNs e) (set_flag true b))
             else set_flag true b).
  assert (H2 : isReady b2 = isReady b /\ headlessMode b2 = headlessMode b /\
               conversationId b2 = conversationId b /\ inviteUrl b2 = inviteUrl b /\
               lastMessageFromConvos b2 = true /\ published b2 = published b /\
               (forall q, getConvosConfigPath cfg <> Some q ->
                  fs_lookup q (files b2) = fs_lookup q (files b))).
  { unfold b2. destruct (truthy (m_sentAtNs e)).
    - repeat split; try reflexivity. intros q Hq. rewrite persist_other by exact Hq.
      reflexivity.
    - repeat split; reflexivity. }
  clearbody b2. destruct H2 as (R & Hh & C & I & F & P & Fs).
  destruct (match m_content e with Str c => match_attachment c | _ => None end)
    as [filename|].
  - destruct (truthy (conversationId b2) && is_image filename).
    + destruct dl as [bytes|].
      * unfold readFileSync. rewrite !fs_lookup_write.
        cbn [isReady headlessMode conversationId inviteUrl lastMessageFromConvos published
             files set_files emit set_flag].
        repeat split; try assumption.
        -- eexists. split; [rewrite P; reflexivity|split; reflexivity].
        -- intros q Hq.
           destruct (unlink_write_cases q
                       (path_join (path_join (match worktreeRoot cfg with
                                              | Some w => w | None => "/tmp" end) ".pi")
                          ("convos-attachment-" ++ m_id e ++ "-" ++ filename))
                       bytes (files b2)) as [E|E].
           ++ left. rewrite E. apply Fs. exact Hq.
           ++ right. exact E.
      * cbn [isReady headlessMode conversationId inviteUrl lastMessageFromConvos published
             files emit].
        repeat split; try assumption.
        -- eexists. split; [rewrite P; reflexivity|split; reflexivity].
        -- intros q Hq. left. apply Fs. exact Hq.
    + cbn [isReady headlessMode conversationId inviteUrl lastMessageFromConvos published
           files emit].
      repeat split; try assumption.
      * eexists. split; [rewrite P; reflexivity|split; reflexivity].
      * intros q Hq. left. apply Fs. exact Hq.
  - cbn [isReady headlessMode conversationId inviteUrl lastMessageFromConvos published
         files emit].
    repeat split; try assumption.
    + eexists. split; [rewrite P; reflexivity|split; reflexivity].
    + intros q Hq. left. apply Fs. exact Hq.
Qed.

Lemma stopAgent_no_process (s : Supervisor.sup) :
  Supervisor.agentProcess (Supervisor.stopAgent s) = false.
Proof.
  unfold Supervisor.stopAgent. destruct (Supervisor.agentProcess s) eqn:E; [reflexivity|].
  exact E.
Qed.

(** A headless configuration and a ready supervisor, for examples. *)
Definition cfg_h : config := mkConfig (Some "/home/u/.convos/.env") (Some "/work/app").

Definition sup_ready : Supervisor.sup := Supervisor.on_ready Supervisor.start.

Definition bridge_h : bridge :=
  mkBridge true true true (Str "conv-7") Undefined (Str "100") None [] [].

End ExtensionFacts.

Module ExtensionExtraClaims.
Import Json Store Bridge Extension ExtensionFacts.
Local Open Scope string_scope.

(** [convos_send] on a running agent succeeds, writes one JSON line to
    the agent's stdin when the stream is writable, that line parses back
    to the send command, and the watermark becomes the send time and is
    saved in the state file. *)
Theorem convos_send_delivers (cfg : config) (now_ns text : string)
    (replyTo : option string) (s : Supervisor.sup) (b : bridge) :
  agent_down s = false ->
  isError (fst (fst (convos_send cfg now_ns text replyTo s b))) = false /\
  Supervisor.stdin_log (snd (fst (convos_send cfg now_ns text replyTo s b)))
    = (Supervisor.stdin_log s ++
       (if Supervisor.stdin_writable s
        then [(stringify_compact (send_cmd text replyTo) ++ nl)%string] else []))%list /\
  json_parse (stringify_compact (send_cmd text replyTo) ++ nl) = Some (send_cmd text replyTo) /\
  lastSeenTimestampNs (snd (convos_send cfg now_ns text replyTo s b)) = Str now_ns /\
  (forall cid p, conversationId b = Str cid -> cid <> "" -> getConvosConfigPath cfg = Some p ->
     get_field (loadPersistedState (Some p) (files (snd (convos_send cfg now_ns text replyTo s b))))
       "lastSeenTimestampNs" = Some (JStr now_ns)).
Proof.
  intros Hd. unfold convos_send. rewrite Hd.
  unfold agent_down in Hd. apply orb_false_elim in Hd as [Hw Hr].
  apply negb_false_iff in Hw.
  cbn [fst snd isError lastSeenTimestampNs persist set_files set_lastSeen].
  split; [reflexivity|]. split.
  { unfold write_json, Supervisor.write_cmd. rewrite Hw. cbn [andb].
    destruct (Supervisor.stdin_writable s); [reflexivity|].
    rewrite app_nil_r. reflexivity. }
  split; [apply send_cmd_parse; reflexivity|]. split; [reflexivity|].
  intros cid p Hc Hcid Hp.
  unfold persist, set_files, set_lastSeen. cbn [files conversationId inviteUrl].
  rewrite Hc, Hp, persist_load by exact Hcid.
  exact (proj2 (state_object_fields cid (inviteUrl b) (Str now_ns))).
Qed.

Lemma convos_send_delivers_witness :
  agent_down sup_ready = false /\
  (isError (fst (fst (convos_send cfg_h "5" "hi" (Some "m1") sup_ready bridge_h))) = false /\
   Supervisor.stdin_log (snd (fst (convos_send cfg_h "5" "hi" (Some "m1") sup_ready bridge_h)))
     = (Supervisor.stdin_log sup_ready ++
        (if Supervisor.stdin_writable sup_ready
         then [(stringify_compact (send_cmd "hi" (Some "m1")) ++ nl)%string] else []))%list /\
   json_parse (stringify_compact (send_cmd "hi" (Some "m1")) ++ nl)
     = Some (send_cmd "hi" (Some "m1")) /\
   lastSeenTimestampNs (snd (convos_send cfg_h "5" "hi" (Some "m1") sup_ready bridge_h))
     = Str "5" /\
   (forall cid p, conversationId bridge_h = Str cid -> cid <> "" ->
      getConvosConfigPath cfg_h = Some p ->
      get_field (loadPersistedState (Some p)
                   (files (snd (convos_send cfg_h "5" "hi" (Some "m1") sup_ready bridge_h))))
        "lastSeenTimestampNs" = Some (JStr "5"))).
Proof.
  split; [reflexivity|]. apply convos_send_delivers. reflexivity.
Defined.

(** [convos_react] on a running agent succeeds and writes one JSON line,
    when the stream is writable, that parses back to the react command. *)
Theorem convos_react_delivers (messageId emoji : string) (action : option string)
    (s : Supervisor.sup) :
  agent_down s = false ->
  isError (fst (convos_react messageId emoji action s)) = false /\
  Supervisor.stdin_log (snd (convos_react messageId emoji action s))
    = (Supervisor.stdin_log s ++
       (if Supervisor.stdin_writable s
        then [(stringify_compact (react_cmd messageId emoji action) ++ nl)%string] else []))%list /\
  json_parse (stringify_compact (react_cmd messageId emoji action) ++ nl)
    = Some (react_cmd messageId emoji action).
Proof.
  intros Hd. unfold convos_react. rewrite Hd.
  unfold agent_down in Hd. apply orb_false_elim in Hd as [Hw _].
  apply negb_false_iff in Hw. cbn [fst snd isError].
  split; [reflexivity|]. split.
  - unfold write_json, Supervisor.write_cmd. rewrite Hw. cbn [andb].
    destruct (Supervisor.stdin_writable s); [reflexivity|].
    rewrite app_nil_r. reflexivity.
  - apply react_cmd_parse. reflexivity.
Qed.

Lemma convos_react_delivers_witness :
  agent_down sup_ready = false /\
  (isError (fst (convos_react "m1" "+1" (Some "remove") sup_ready)) = false /\
   Supervisor.stdin_log (snd (convos_react "m1" "+1" (Some "remove") sup_ready))
     = (Supervisor.stdin_log sup_ready ++
        (if Supervisor.stdin_writable sup_ready
         then [(stringify_compact (react_cmd "m1" "+1" (Some "remove")) ++ nl)%string] else []))%list /\
   json_parse (stringify_compact (react_cmd "m1" "+1" (Some "remove")) ++ nl)
     = Some (react_cmd "m1" "+1" (Some "remove"))).
Proof.
  split; [reflexivity|]. apply convos_react_delivers. reflexivity.
Defined.



(** The default conversation name never holds a slash. It is the project
    name alone when there is no branch or the branch is empty, main,
    master or HEAD; otherwise the project name, the separator and a
    summary of at most two words without dashes or underscores. *)
Theorem default_name_shape (wt branch : option string) :
  count_char "/" (getDefaultConversationName wt branch) = O /\
  match branch with
  | Some br =>
      if existsb (String.eqb br) [""; "main"; "master"; "HEAD"]
      then getDefaultConversationName wt branch = projectName wt
      else exists summary,
        getDefaultConversationName wt branch = projectName wt ++ name_sep ++ summary /\
        (count_char " " summary <= 1)%nat /\ count_char "-" summary = O /\
        count_char "_" summary = O
  | None => getDefaultConversationName wt branch = projectName wt
  end.
Proof.
  destruct branch as [br|]; [|split; [apply projectName_no_slash|reflexivity]].
  unfold getDefaultConversationName. cbn [existsb].
  destruct (String.eqb br ""), (String.eqb br "main"), (String.eqb br "master"),
    (String.eqb br "HEAD"); cbn [negb andb orb];
    try (split; [apply projectName_no_slash|reflexivity]).
  destruct (branch_summary_shape br) as (S1 & S2 & S3 & S4).
  split.
  - rewrite !count_char_app, projectName_no_slash, S4. reflexivity.
  - exists (branch_summary br). split; [reflexivity|]. split; [exact S1|split; assumption].
Qed.

(** Headless start: after the state of conversation [cid] with watermark
    [ls] was saved, the agent is started on [cid] and the watermark is
    restored; with no state file, a new conversation is created under the
    default or configured name and no watermark is restored. *)
Theorem headless_restart_resumes (cfg : config) (env cid ls : string) (inv : jsval) (m : fs)
    (init_ok : bool) (convosName : option string) (prof : string) (branch : option string) :
  convosEnvFile cfg = Some env -> cid <> "" -> ls <> "" ->
  (init_ok = true \/ existsSync env m = true) ->
  session_start false true init_ok cfg convosName prof branch
    (persistState (getConvosConfigPath cfg) (Str cid) inv (Str ls) m)
    = (AutoStarted [JStr "--env-file"; JStr env; JStr cid], Some (JStr ls)) /\
  (fs_lookup (path_join (dirname env) "convos-session.json") m = None ->
   session_start false true init_ok cfg convosName prof branch m
     = (AutoStarted ([JStr "--env-file"; JStr env] ++
          map JStr ["--name"; name_or_default convosName
                                (getDefaultConversationName (worktreeRoot cfg) branch);
                    "--profile-name"; prof])%list, None)).
Proof.
  intros He Hcid Hls Hinit. split.
  - apply session_start_after_persist; assumption.
  - intros Hnone. unfold session_start. cbn [negb]. rewrite He.
    assert (Hi : negb (existsSync env m) && negb init_ok = false).
    { destruct Hinit as [->|Hx]; [apply andb_false_r|rewrite Hx; reflexivity]. }
    rewrite Hi, (headless_config_path cfg env He).
    assert (Hx : existsSync (path_join (dirname env) "convos-session.json") m = false)
      by (unfold existsSync; rewrite Hnone; reflexivity).
    unfold loadPersistedState. rewrite Hx. reflexivity.
Qed.

Lemma headless_restart_resumes_witness :
  convosEnvFile cfg_h = Some "/home/u/.convos/.env" /\ "conv-7" <> "" /\ "100" <> "" /\
  (true = true \/ existsSync "/home/u/.convos/.env" [] = true) /\
  (session_start false true true cfg_h None "Pi" (Some "feature/add-auth")
     (persistState (getConvosConfigPath cfg_h) (Str "conv-7") Undefined (Str "100") [])
     = (AutoStarted [JStr "--env-file"; JStr "/home/u/.convos/.env"; JStr "conv-7"],
        Some (JStr "100")) /\
   (fs_lookup (path_join (dirname "/home/u/.convos/.env") "convos-session.json") [] = None ->
    session_start false true true cfg_h None "Pi" (Some "feature/add-auth") []
      = (AutoStarted ([JStr "--env-file"; JStr "/home/u/.convos/.env"] ++
           map JStr ["--name"; name_or_default None
                                 (getDefaultConversationName (worktreeRoot cfg_h)
                                    (Some "feature/add-auth"));
                     "--profile-name"; "Pi"])%list, None))).
Proof.
  split; [reflexivity|]. split; [discriminate|]. split; [discriminate|].
  split; [left; reflexivity|].
  apply headless_restart_resumes; [reflexivity|discriminate|discriminate|left; reflexivity].
Defined.

(** Headless shutdown stops the agent, sets the watermark to the
    shutdown time and saves it; the next headless start resumes the same
    conversation from that watermark. *)
Theorem shutdown_then_restart (cfg : config) (env cid now_ns : string) (init_ok : bool)
    (convosName : option string) (prof : string) (branch : option string)
    (s : Supervisor.sup) (b : bridge) :
  convosEnvFile cfg = Some env -> headlessMode b = true -> conversationId b = Str cid ->
  cid <> "" -> now_ns <> "" -> (init_ok = true \/ existsSync env (files b) = true) ->
  Supervisor.agentProcess (fst (session_shutdown cfg now_ns s b)) = false /\
  lastSeenTimestampNs (snd (session_shutdown cfg now_ns s b)) = Str now_ns /\
  session_start false true init_ok cfg convosName prof branch
    (files (snd (session_shutdown cfg now_ns s b)))
    = (AutoStarted [JStr "--env-file"; JStr env; JStr cid], Some (JStr now_ns)).
Proof.
  intros He Hh Hc Hcid Hnow Hinit.
  assert (Hf : files (snd (session_shutdown cfg now_ns s b))
               = persistState (getConvosConfigPath cfg) (Str cid) (inviteUrl b)
                   (Str now_ns) (files b)).
  { unfold session_shutdown. rewrite Hh. cbn [snd].
    destruct (Supervisor.agentProcess s); cbn; rewrite Hc; reflexivity. }
  split; [apply stopAgent_no_process|]. split.
  - unfold session_shutdown. rewrite Hh. cbn [snd].
    destruct (Supervisor.agentProcess s); reflexivity.
  - rewrite Hf. apply session_start_after_persist; assumption.
Qed.

Lemma shutdown_then_restart_witness :
  convosEnvFile cfg_h = Some "/home/u/.convos/.env" /\ headlessMode bridge_h = true /\
  conversationId bridge_h = Str "conv-7" /\ "conv-7" <> "" /\ "900" <> "" /\
  (true = true \/ existsSync "/home/u/.convos/.env" (files bridge_h) = true) /\
  (Supervisor.agentProcess (fst (session_shutdown cfg_h "900" sup_ready bridge_h)) = false /\
   lastSeenTimestampNs (snd (session_shutdown cfg_h "900" sup_ready bridge_h)) = Str "900" /\
   session_start false true true cfg_h None "Pi" None
     (files (snd (session_shutdown cfg_h "900" sup_ready bridge_h)))
     = (AutoStarted [JStr "--env-file"; JStr "/home/u/.convos/.env"; JStr "conv-7"],
        Some (JStr "900"))).
Proof.
  split; [reflexivity|]. split; [reflexivity|]. split; [reflexivity|].
  split; [discriminate|]. split; [discriminate|]. split; [left; reflexivity|].
  apply shutdown_then_restart;
    [reflexivity|reflexivity|reflexivity|discriminate|discriminate|left; reflexivity].
Defined.

(** [/convos-start] with only flags resumes the saved conversation by
    putting its id first; any positional argument is taken as the
    conversation and the arguments are passed unchanged; with only flags
    and no state file, a new conversation is requested under the default
    or configured name. *)
Theorem convos_start_resumes (cfg : config) (p cid : string) (inv ls : jsval) (m : fs)
    (convosName : option string) (prof : string) (branch : option string) (args : string) :
  getConvosConfigPath cfg = Some p -> cid <> "" ->
  (forallb starts_with_dash (parse_args args) = true ->
   convos_start cfg convosName prof branch false true args
     (persistState (getConvosConfigPath cfg) (Str cid) inv ls m)
     = StartAgent (JStr cid :: map JStr (parse_args args))) /\
  (forallb starts_with_dash (parse_args args) = false ->
   convos_start cfg convosName prof branch false true args
     (persistState (getConvosConfigPath cfg) (Str cid) inv ls m)
     = StartAgent (map JStr (parse_args args))) /\
  (fs_lookup p m = None -> forallb starts_with_dash (parse_args args) = true ->
   convos_start cfg convosName prof branch false true args m
     = StartAgent (map JStr (parse_args args ++
         ["--name"; name_or_default convosName
                      (getDefaultConversationName (worktreeRoot cfg) branch);
          "--profile-name"; prof])%list)).
Proof.
  intros Hp Hcid. unfold convos_start. cbn [negb]. rewrite existsb_not_dash.
  split; [|split].
  - intros Hall. rewrite Hall. cbn [negb].
    rewrite (persisted_conversation cfg p cid inv ls m Hp Hcid). cbn [jtruthy].
    apply String.eqb_neq in Hcid. rewrite Hcid. reflexivity.
  - intros Hall. rewrite Hall. reflexivity.
  - intros Hnone Hall. rewrite Hall. cbn [negb].
    unfold loadPersistedConversation. rewrite Hp.
    unfold loadPersistedState, existsSync. rewrite Hnone. reflexivity.
Qed.

Lemma convos_start_resumes_witness :
  getConvosConfigPath cfg_h = Some "/home/u/.convos/convos-session.json" /\
  "conv-7" <> "" /\
  ((forallb starts_with_dash (parse_args "--verbose") = true ->
    convos_start cfg_h None "Pi" None false true "--verbose"
      (persistState (getConvosConfigPath cfg_h) (Str "conv-7") Undefined Undefined [])
      = StartAgent (JStr "conv-7" :: map JStr (parse_args "--verbose"))) /\
   (forallb starts_with_dash (parse_args "--verbose") = false ->
    convos_start cfg_h None "Pi" None false true "--verbose"
      (persistState (getConvosConfigPath cfg_h) (Str "conv-7") Undefined Undefined [])
      = StartAgent (map JStr (parse_args "--verbose"))) /\
   (fs_lookup "/home/u/.convos/convos-session.json" [] = None ->
    forallb starts_with_dash (parse_args "--verbose") = true ->
    convos_start cfg_h None "Pi" None false true "--verbose" []
      = StartAgent (map JStr (parse_args "--verbose" ++
          ["--name"; name_or_default None (getDefaultConversationName (worktreeRoot cfg_h) None);
           "--profile-name"; "Pi"])%list))).
Proof.
  split; [reflexivity|]. split; [discriminate|].
  apply convos_start_resumes; [reflexivity|discriminate].
Defined.

(** Every [message] event marks the last message as coming from Convos,
    publishes exactly one item, which triggers and steers a turn, keeps
    the readiness, mode, conversation and invite, and never leaves a
    file behind other than the state file: any other path either keeps
    its old contents or no longer exists. *)
Theorem message_event_publishes_one (cfg : config) (dl : option string) (e : msg_event)
    (b : bridge) :
  isReady (handle_message cfg dl e b) = isReady b /\
  headlessMode (handle_message cfg dl e b) = headlessMode b /\
  conversationId (handle_message cfg dl e b) = conversationId b /\
  inviteUrl (handle_message cfg dl e b) = inviteUrl b /\
  lastMessageFromConvos (handle_message cfg dl e b) = true /\
  (exists p, published (handle_message cfg dl e b) = (published b ++ [p])%list /\
             triggers_turn p = true /\ steers p = true) /\
  (forall q, getConvosConfigPath cfg <> Some q ->
     fs_lookup q (files (handle_message cfg dl e b)) = fs_lookup q (files b) \/
     fs_lookup q (files (handle_message cfg dl e b)) = None).
Proof. apply handle_message_effect. Qed.

(** With the agent ready, the turn after a Convos message gets the Convos
    directive; once terminal input follows, the terminal directive (none
    in headless mode); input from any other source changes nothing. *)
Theorem hook_routing (cfg : config) (dl : option string) (e : msg_event) (b : bridge)
    (source systemPrompt : string) :
  isReady b = true ->
  before_agent_start (handle_message cfg dl e b) systemPrompt
    = Some (systemPrompt ++ convos_directive) /\
  before_agent_start (on_input "interactive" (handle_message cfg dl e b)) systemPrompt
    = (if headlessMode b then None else Some (systemPrompt ++ terminal_directive)) /\
  (source <> "interactive" -> on_input source b = b).
Proof.
  intros Hr.
  destruct (handle_message_effect cfg dl e b) as (R & Hh & _ & _ & F & _ & _).
  split; [|split].
  - unfold before_agent_start. rewrite R, Hr, F. cbn [negb].
    destruct (headlessMode (handle_message cfg dl e b)); reflexivity.
  - unfold on_input. rewrite (String.eqb_refl "interactive").
    unfold before_agent_start, set_flag. cbn [isReady headlessMode lastMessageFromConvos].
    rewrite R, Hr, Hh. cbn [negb]. destruct (headlessMode b); reflexivity.
  - intros Hs. unfold on_input. apply String.eqb_neq in Hs. rewrite Hs. reflexivity.
Qed.

Lemma hook_routing_witness :
  isReady bridge_h = true /\
  (before_agent_start
     (handle_message cfg_h None (mkMsg "m1" "inbox-2" (Str "hello") (Str "200")) bridge_h)
     "SYS" = Some ("SYS" ++ convos_directive) /\
   before_agent_start
     (on_input "interactive"
        (handle_message cfg_h None (mkMsg "m1" "inbox-2" (Str "hello") (Str "200")) bridge_h))
     "SYS"
     = (if headlessMode bridge_h then None else Some ("SYS" ++ terminal_directive)) /\
   ("rpc" <> "interactive" -> on_input "rpc" bridge_h = bridge_h)).
Proof.
  split; [reflexivity|]. apply hook_routing. reflexivity.
Defined.

(** A catch-up publishes at most one item. Either it publishes nothing and
    leaves the flag, the watermark and the files as they were, or it
    publishes one steering user message and marks the last message as
    coming from Convos; readiness and conversation are kept either way. *)
Theorem catchup_at_most_one_prompt (cfg : config) (fetch : option (list fetched))
    (own_lookup : option string) (b : bridge) :
  isReady (catchUpOnMissedMessages cfg fetch own_lookup b) = isReady b /\
  conversationId (catchUpOnMissedMessages cfg fetch own_lookup b) = conversationId b /\
  ((published (catchUpOnMissedMessages cfg fetch own_lookup b) = published b /\
    lastMessageFromConvos (catchUpOnMissedMessages cfg fetch own_lookup b)
      = lastMessageFromConvos b /\
    lastSeenTimestampNs (catchUpOnMissedMessages cfg fetch own_lookup b)
      = lastSeenTimestampNs b /\
    files (catchUpOnMissedMessages cfg fetch own_lookup b) = files b) \/
   (exists text,
      published (catchUpOnMissedMessages cfg fetch own_lookup b)
        = (published b ++ [SendUserMessage text None true])%list /\
      lastMessageFromConvos (catchUpOnMissedMessages cfg fetch own_lookup b) = true)).
Proof.
  unfold catchUpOnMissedMessages.
  destruct (negb (truthy (conversationId b))).
  { split; [reflexivity|split; [reflexivity|left; repeat split]]. }
  destruct (convosEnvFile cfg).
  2: { split; [reflexivity|split; [reflexivity|left; repeat split]]. }
  destruct (negb (truthy (lastSeenTimestampNs b))).
  { split; [reflexivity|split; [reflexivity|left; repeat split]]. }
  destruct fetch as [[|m0 ms]|];
    try (split; [reflexivity|split; [reflexivity|left; repeat split]]).
  cbv zeta.
  match goal with |- context [match filter ?f ?l with _ => _ end] =>
    destruct (filter f l) as [|x xs] end.
  - split; [reflexivity|split; [reflexivity|left; repeat split]].
  - match goal with |- context [if truthy ?t then _ else _] => destruct (truthy t) end;
      (split; [reflexivity|split; [reflexivity|right; eexists; split; reflexivity]]).
Qed.

End ExtensionExtraClaims.
